(** * Computable phenotype for alcohol use disorder: keyword notes and ICD cohort

    A shallow embedding of [Population_identified_keywords.py] (the sentence
    classifier, the note classifier, the per-file processor with its
    skip-if-present checkpoint, the sequential driver and the merge section)
    and of [Population_identified_ICD.py] (the visit-count cohort filter),
    followed by the properties established about them.

    Text is a [string] whose characters are the code points 0..255 (ASCII and
    Latin-1), for which the classification of characters used by [str.strip],
    by [\b] and by [re.IGNORECASE] is written out below. *)

From Stdlib Require Import ZArith List String Ascii Bool Lia Permutation.
From stdpp Require Import base gmap strings list sorting.

Local Open Scope string_scope.

(** ** Characters and the string primitives the scripts use *)

Module Text.

Definition code (c : ascii) : N := N_of_ascii c.

Definition in_range (lo hi : N) (c : ascii) : bool :=
  ((lo <=? code c) && (code c <=? hi))%N.

(** The class [[.!?;:\n]] of the sentence splitter. *)
Definition is_terminator (c : ascii) : bool :=
  match code c with
  | 46%N | 33%N | 63%N | 59%N | 58%N | 10%N => true
  | _ => false
  end.

(** [str.isspace] on the code points 0..255: what [str.strip()] removes. *)
Definition is_space (c : ascii) : bool :=
  in_range 9 13 c || in_range 28 32 c
  || (code c =? 133)%N || (code c =? 160)%N.

(** [\w] of a [str] pattern on the code points 0..255: alphanumeric
    (letters, decimal digits, superscript digits, vulgar fractions) or
    underscore. *)
Definition is_word_char (c : ascii) : bool :=
  in_range 48 57 c || in_range 65 90 c || in_range 97 122 c
  || (code c =? 95)%N
  || (code c =? 170)%N || (code c =? 178)%N || (code c =? 179)%N
  || (code c =? 181)%N || (code c =? 185)%N || (code c =? 186)%N
  || in_range 188 190 c
  || in_range 192 214 c || in_range 216 246 c || in_range 248 255 c.

(** Case folding of the ASCII letters, all that a pattern written in ASCII
    letters can tell apart in text of code points 0..255. *)
Definition lower (c : ascii) : ascii :=
  if in_range 65 90 c then ascii_of_N (code c + 32) else c.


Definition head (s : string) : option ascii :=
  match s with
  | EmptyString => None
  | String c _ => Some c
  end.

(** [re.split(r'[.!?;:\n]+', text)]: the pieces between maximal runs of
    terminators; a text that starts (ends) with a terminator has an empty
    first (last) piece, and the result is never the empty list. *)
Fixpoint re_split (s : string) : list string :=
  match s with
  | EmptyString => [EmptyString]
  | String c s' =>
      if is_terminator c then
        match head s' with
        | Some d => if is_terminator d then re_split s'
                    else EmptyString :: re_split s'
        | None => EmptyString :: re_split s'
        end
      else
        match re_split s' with
        | p :: ps => String c p :: ps
        | [] => [String c EmptyString]
        end
  end.

Fixpoint lstrip (s : string) : string :=
  match s with
  | EmptyString => EmptyString
  | String c s' => if is_space c then lstrip s' else s
  end.

Fixpoint rstrip (s : string) : string :=
  match s with
  | EmptyString => EmptyString
  | String c s' =>
      match rstrip s' with
      | EmptyString => if is_space c then EmptyString
                       else String c EmptyString
      | r => String c r
      end
  end.

(** [sentence.strip()] *)
Definition strip (s : string) : string := rstrip (lstrip s).

(** [len(sentence)] *)
Definition len (s : string) : nat := String.length s.

End Text.

(** ** Compiled patterns *)

Module Re.
Import Text.

(** A compiled pattern, seen through the only use the scripts make of it:
    whether [pattern.search(sentence)] finds a match. *)
Record Pattern := { search : string → bool }.

Definition is_word_opt (o : option ascii) : bool :=
  match o with
  | Some c => is_word_char c
  | None => false
  end.

(** [\b] between the character before and the character after a position. *)
Definition word_boundary (before after : option ascii) : bool :=
  xorb (is_word_opt before) (is_word_opt after).

(** Match the literal [w] at the start of [s] under [re.IGNORECASE]; gives
    the last character consumed and the rest of the text. *)
Fixpoint match_here (w s : string) (last : option ascii)
  : option (option ascii * string) :=
  match w with
  | EmptyString => Some (last, s)
  | String a w' =>
      match s with
      | EmptyString => None
      | String b s' =>
          if Ascii.eqb (lower a) (lower b) then match_here w' s' (Some b)
          else None
      end
  end.

(** One alternative of [\b(?:...)\b] tried at a position whose preceding
    character is [prev]. *)
Definition alt_at (prev : option ascii) (s : string) (w : string) : bool :=
  word_boundary prev (head s)
  && match match_here w s prev with
     | Some (last, rest) => word_boundary last (head rest)
     | None => false
     end.

Fixpoint search_words (ws : list string) (prev : option ascii) (s : string)
  : bool :=
  existsb (alt_at prev s) ws
  || match s with
     | EmptyString => false
     | String c s' => search_words ws (Some c) s'
     end.

(** [re.compile(r'\b(?:w1|...|wn)\b', re.IGNORECASE)] *)
Definition word_alternation (ws : list string) : Pattern :=
  {| search := search_words ws None |}.

End Re.

(** ** Paths and file-name patterns *)

Module Path.

Definition slash : ascii := "/"%char.
Definition dot : ascii := "."%char.

(** The text before and after the last [/], when there is one. *)
Fixpoint split_last (p : string) : option (string * string) :=
  match p with
  | EmptyString => None
  | String c p' =>
      match split_last p' with
      | Some (d, b) => Some (String c d, b)
      | None => if Ascii.eqb c slash then Some (EmptyString, p') else None
      end
  end.

Fixpoint all_slashes (p : string) : bool :=
  match p with
  | EmptyString => true
  | String c p' => Ascii.eqb c slash && all_slashes p'
  end.

Fixpoint rstrip_slashes (p : string) : string :=
  match p with
  | EmptyString => EmptyString
  | String c p' =>
      match rstrip_slashes p' with
      | EmptyString => if Ascii.eqb c slash then EmptyString
                       else String c EmptyString
      | r => String c r
      end
  end.

(** [os.path.basename] *)
Definition basename (p : string) : string :=
  match split_last p with
  | Some (_, b) => b
  | None => p
  end.

(** [os.path.dirname] *)
Definition dirname (p : string) : string :=
  match split_last p with
  | Some (d, _) => if all_slashes d then d +:+ "/" else rstrip_slashes d
  | None => EmptyString
  end.

(** [os.path.join] of two components *)
Definition join (a b : string) : string :=
  match b with
  | String c _ => if Ascii.eqb c slash then b else
      if String.eqb a "" then b
      else match split_last a with
           | Some (_, EmptyString) => a +:+ b
           | _ => a +:+ "/" +:+ b
           end
  | EmptyString =>
      if String.eqb a "" then b
      else match split_last a with
           | Some (_, EmptyString) => a
           | _ => a +:+ "/"
           end
  end.

Fixpoint has_slash (p : string) : bool :=
  match p with
  | EmptyString => false
  | String c p' => Ascii.eqb c slash || has_slash p'
  end.

Fixpoint drop (n : nat) (s : string) : string :=
  match n, s with
  | O, _ => s
  | S n', String _ s' => drop n' s'
  | S _, EmptyString => EmptyString
  end.

Definition ends_with (suf s : string) : bool :=
  (String.length suf <=? String.length s)%nat
  && String.eqb (drop (String.length s - String.length suf) s) suf.

Definition hidden (name : string) : bool :=
  match name with
  | String c _ => Ascii.eqb c dot
  | EmptyString => false
  end.

(** One path component against the pattern [pre*suf]: [*] stands for any
    run of characters, and does not match a leading dot. *)
Definition wild (pre suf name : string) : bool :=
  negb (has_slash name) && negb (hidden name)
  && String.prefix pre name
  && ends_with suf (drop (String.length pre) name).

(** A path against [dir*suf], where [dir] ends with [/]. *)
Definition glob_file (dir suf path : string) : bool :=
  String.prefix dir path && wild "" suf (drop (String.length dir) path).

(** A path against [dir*/pre*suf], where [dir] ends with [/]. *)
Definition glob_subdir_file (dir pre suf path : string) : bool :=
  String.prefix dir path
  && match split_last (drop (String.length dir) path) with
     | Some (d, f) => negb (String.eqb d "") && wild "" "" d && wild pre suf f
     | None => false
     end.

Fixpoint insert_sorted (p : string) (ps : list string) : list string :=
  match ps with
  | [] => [p]
  | q :: ps' => if String.leb p q then p :: ps else q :: insert_sorted p ps'
  end.

(** [sorted(paths)] *)
Definition sorted (ps : list string) : list string :=
  fold_right insert_sorted [] ps.

End Path.

(** ** The keyword script *)

Module Keywords.
Import Text Re.

Definition negation_pattern : Pattern :=
  word_alternation
    ["no"; "not"; "never"; "denies"; "without"; "negative"; "free of";
     "absent"; "ruled out"].

Definition context_filter_pattern : Pattern :=
  word_alternation
    ["if"; "recommend"; "suggest"; "advise"; "should"; "limiting"; "avoid";
     "consider"; "encourage"; "abstain"; "family member"; "family history";
     "mother"; "father"; "parent"; "sibling"; "relative"].

Definition legal_admin_filter_pattern : Pattern :=
  word_alternation
    ["authorization"; "release"; "consent"; "information"; "disclosure";
     "permission"; "record"; "agreement"; "form"; "policy"; "AUDIT"].

(** A Python [set] of root names: its elements in the order they were
    first added.  The order in which the interpreter enumerates a set is
    not this order; see [Interp] below. *)
Definition PySet := list string.

(** [s.add(x)] *)
Definition set_add (x : string) (s : PySet) : PySet :=
  if decide (x ∈ s) then s else (s ++ [x])%list.

(** [aud_patterns]: the rows of keywords_regex_precise.csv (not part of the
    sources), each compiled with [re.IGNORECASE] and paired with its root. *)
Definition Registry := list (Pattern * string).

Definition scan_patterns (sentence : string) (aud_patterns : Registry)
    (matched_roots : PySet) : PySet :=
  fold_left
    (fun acc pr => if search (fst pr) sentence then set_add (snd pr) acc
                   else acc)
    aud_patterns matched_roots.

Definition check_sentence_for_keywords (sentence : string)
    (aud_patterns : Registry)
    (negation_pattern context_filter_pattern legal_admin_filter_pattern
       : Pattern)
  : PySet * bool :=
  let matched_roots : PySet := [] in
  if search negation_pattern sentence then (matched_roots, false)
  else if search context_filter_pattern sentence then (matched_roots, false)
  else if search legal_admin_filter_pattern sentence
  then (matched_roots, false)
  else
    let matched_roots := scan_patterns sentence aud_patterns matched_roots in
    (matched_roots, (0 <? length matched_roots)%nat).

(** The interpreter's enumeration of a set.  CPython walks the hash table
    by slot, and the slot of a string follows from its hash, which is
    salted per process (PYTHONHASHSEED): the enumeration is a parameter,
    known only to list exactly the elements of the set. *)
Record Interp := {
  set_iter : PySet → list string;
  set_iter_perm : ∀ s, set_iter s ≡ₚ s
}.

(** An interpreter whose table places a string by the given hash: elements
    come out by increasing slot. *)
Definition slot_le (hash : string → nat) (x y : string) : Prop :=
  (hash x ≤ hash y)%nat.

#[local] Instance slot_le_dec hash x y : Decision (slot_le hash x y).
Proof. unfold slot_le. apply _. Defined.

Definition slot_order (hash : string → nat) : Interp :=
  {| set_iter := merge_sort (slot_le hash);
     set_iter_perm := merge_sort_Permutation (slot_le hash) |}.

Section Classifier.
Variable interp : Interp.

(** [s.update(other)] with [other] a set: its elements are added in the
    order the interpreter enumerates them. *)
Definition set_update (other s : PySet) : PySet :=
  fold_left (fun acc x => set_add x acc) (set_iter interp other) s.

(** One turn of the loop over the sentences of a note; the state is
    [(all_aud_roots, matched_sentences)]. *)
Definition note_step (aud_patterns : Registry)
    (negation_pattern context_filter_pattern legal_admin_filter_pattern
       : Pattern)
    (st : PySet * list string) (sentence : string)
  : PySet * list string :=
  let sentence := strip sentence in
  if String.eqb sentence "" || (len sentence <? 10)%nat then st
  else
    let r := check_sentence_for_keywords sentence aud_patterns
               negation_pattern context_filter_pattern
               legal_admin_filter_pattern in
    if snd r && negb (bool_decide (fst r = [])) then
      (set_update (fst r) (fst st), (snd st ++ [sentence])%list)
    else st.

(** [text] is [None] for a missing value ([None] or NaN). *)
Definition process_note_text (text : option string)
    (aud_patterns : Registry)
    (negation_pattern context_filter_pattern legal_admin_filter_pattern
       : Pattern)
  : list string * nat * list string :=
  match text with
  | None => ([], 0%nat, [])
  | Some EmptyString => ([], 0%nat, [])
  | Some text =>
      let sentences := re_split text in
      let st :=
        fold_left
          (note_step aud_patterns negation_pattern context_filter_pattern
             legal_admin_filter_pattern)
          sentences ([], []) in
      (set_iter interp (fst st), length (fst st), snd st)
  end.

End Classifier.

(** *** Files *)

Definition notes_dir : string := "/media/volume/GLP/RDRP_6263_AUD/notes/".
Definition results_path : string := "results/".
Definition intermediate_path : string := "results/intermediate_keywords/".

(** The message of a raised exception. *)
Definition Exn := string.

Record NoteRecord := {
  OMOP_PERSON_ID : Z;
  ENCOUNTER_ID : Z;
  PHYSIOLOGIC_TIME : string;
  REPORT_TEXT : option string
}.

(** A loaded parquet file: the columns it has and its rows. *)
Record DataFrame := {
  columns : list string;
  records : list NoteRecord
}.

(** What [pd.read_parquet] finds at a path. *)
Inductive Stored :=
| Unreadable (e : Exn)
| Table (df : DataFrame).

(** A row of the results table. *)
Record ResultRow := {
  person_id : Z;
  note_id : Z;
  note_date : string;
  aud_roots : list string;
  aud_roots_count : nat;
  matched_sentences : list string
}.

(** The content of a CSV file, to the line: nothing at all, or the header
    line followed by rows. *)
Inductive Csv :=
| EmptyFile
| Sheet (rows : list ResultRow).

(** The machine the script runs on: the parquet files, the CSV files, the
    writes that will fail (a path to write to, the number of steps that
    succeed before the error, and the error: an I/O error, or memory running
    out while a later chunk is formatted), and the log of parquet reads. *)
Record World := {
  parquet_store : gmap string Stored;
  files : gmap string Csv;
  faults : gmap string (nat * Exn);
  read_log : list string
}.

Definition with_files (w : World) (fs : gmap string Csv) : World :=
  {| parquet_store := parquet_store w; files := fs; faults := faults w;
     read_log := read_log w |}.

(** [os.path.exists] *)
Definition exists_ (path : string) (w : World) : bool :=
  bool_decide (is_Some (files w !! path)).

(** [pd.read_parquet]: the read is logged. *)
Definition read_parquet (path : string) (w : World)
  : (Exn + DataFrame) * World :=
  let w' := {| parquet_store := parquet_store w; files := files w;
               faults := faults w;
               read_log := (read_log w ++ [path])%list |} in
  match parquet_store w !! path with
  | Some (Table df) => (inr df, w')
  | Some (Unreadable e) => (inl e, w')
  | None => (inl ("[Errno 2] No such file or directory: '" +:+ path +:+ "'"),
             w')
  end.

(** [DataFrame.to_csv(path, index=False)] opens the path for writing, which
    creates or truncates the file there, then writes the header line and
    the rows in turn. *)
Inductive FsOp :=
| Create (path : string)
| PutHeader (path : string)
| PutRow (path : string) (r : ResultRow).

Definition apply_op (op : FsOp) (fs : gmap string Csv) : gmap string Csv :=
  match op with
  | Create p => <[p := EmptyFile]> fs
  | PutHeader p => <[p := Sheet []]> fs
  | PutRow p r =>
      match fs !! p with
      | Some (Sheet rs) => <[p := Sheet (rs ++ [r])]> fs
      | _ => <[p := Sheet [r]]> fs
      end
  end.

Definition to_csv_ops (path : string) (rows : list ResultRow) : list FsOp :=
  Create path :: PutHeader path :: map (PutRow path) rows.

Definition run_ops (ops : list FsOp) (fs : gmap string Csv)
  : gmap string Csv :=
  fold_left (fun fs op => apply_op op fs) ops fs.

(** The files as they are when a write stops after [k] steps, because the
    process is killed or because the write raises there. *)
Definition interrupted (k : nat) (ops : list FsOp) (w : World) : World :=
  with_files w (run_ops (firstn k ops) (files w)).

Definition to_csv (path : string) (rows : list ResultRow) (w : World)
  : (Exn + unit) * World :=
  let ops := to_csv_ops path rows in
  match faults w !! path with
  | Some (k, e) =>
      if (k <? length ops)%nat then (inl e, interrupted k ops w)
      else (inr tt, with_files w (run_ops ops (files w)))
  | None => (inr tt, with_files w (run_ops ops (files w)))
  end.

(** [pd.read_csv] *)
Definition read_csv (path : string) (w : World) : Exn + list ResultRow :=
  match files w !! path with
  | Some (Sheet rows) => inr rows
  | Some EmptyFile => inl "No columns to parse from file"
  | None => inl ("[Errno 2] No such file or directory: '" +:+ path +:+ "'")
  end.

(** [row[col]]: a [KeyError] when the file has no such column. *)
Definition getitem {A} (df : DataFrame) (col : string) (v : A) : Exn + A :=
  if decide (col ∈ columns df) then inr v
  else inl ("'" +:+ col +:+ "'").

(** *** The per-file processor, the driver and the merge *)

(** The second component of a summary: a count of matched notes, or the
    string ['SKIPPED']. *)
Inductive Matches :=
| SKIPPED
| Count (n : nat).

(** [(file_name, num_matches, num_notes, error)] *)
Definition Summary : Type := string * Matches * nat * option string.

Notation "'try' x ⇐ m 'in' k" :=
  (match m with inl e => inl e | inr x => k end)
  (at level 10, x name, m at level 100, k at level 200, only parsing).

Section Run.
Variable interp : Interp.
Variable aud_patterns : Registry.

(** One turn of the loop over the rows of a file; the state is
    [(results, matched_count)], or the exception that ended the loop. *)
Definition row_step (df : DataFrame)
    (acc : Exn + (list ResultRow * nat)) (row : NoteRecord)
  : Exn + (list ResultRow * nat) :=
  try st ⇐ acc in
  try person_id ⇐ getitem df "OMOP_PERSON_ID" (OMOP_PERSON_ID row) in
  try note_id ⇐ getitem df "ENCOUNTER_ID" (ENCOUNTER_ID row) in
  try note_date ⇐ getitem df "PHYSIOLOGIC_TIME" (PHYSIOLOGIC_TIME row) in
  try report_text ⇐ getitem df "REPORT_TEXT" (REPORT_TEXT row) in
  let r := process_note_text interp report_text aud_patterns
             negation_pattern context_filter_pattern
             legal_admin_filter_pattern in
  if (0 <? snd (fst r))%nat then
    inr ((fst st ++
            [{| person_id := person_id; note_id := note_id;
                note_date := note_date; aud_roots := fst (fst r);
                aud_roots_count := snd (fst r);
                matched_sentences := snd r |}])%list,
         (snd st + 1)%nat)
  else inr st.

Definition classify_rows (df : DataFrame) : Exn + (list ResultRow * nat) :=
  fold_left (row_step df) (records df) (inr ([], 0%nat)).

(** The body of the [try] block. *)
Definition process_body (file_path output_file : string) (w : World)
  : (Exn + (Matches * nat)) * World :=
  match read_parquet file_path w with
  | (inl e, w1) => (inl e, w1)
  | (inr df, w1) =>
      let total_notes := length (records df) in
      match classify_rows df with
      | inl e => (inl e, w1)
      | inr (results, matched_count) =>
          match results with
          | [] => (inr (Count matched_count, total_notes), w1)
          | _ :: _ =>
              match to_csv output_file results w1 with
              | (inl e, w2) => (inl e, w2)
              | (inr _, w2) => (inr (Count matched_count, total_notes), w2)
              end
          end
      end
  end.

Definition file_name_of (file_path : string) : string :=
  Path.basename (Path.dirname file_path).

Definition output_file_of (file_path : string) : string :=
  Path.join intermediate_path (file_name_of file_path +:+ "_results.csv").

Definition process_single_parquet (args : string * nat * nat) (w : World)
  : Summary * World :=
  let file_path := fst (fst args) in
  let file_name := file_name_of file_path in
  let output_file := output_file_of file_path in
  if exists_ output_file w then ((file_name, SKIPPED, 0%nat, None), w)
  else
    match process_body file_path output_file w with
    | (inr (num_matches, num_notes), w') =>
        ((file_name, num_matches, num_notes, None), w')
    | (inl e, w') =>
        ((file_name, Count 0, 0%nat, Some ("Error: " +:+ e)), w')
    end.

(** [sorted(glob.glob(f'{notes_dir}*/part-*.parquet'))] *)
Definition parquet_files (w : World) : list string :=
  Path.sorted
    (filter (fun p => Path.glob_subdir_file notes_dir "part-" ".parquet" p = true)
       (map_to_list (parquet_store w)).*1).

Definition file_args (w : World) : list (string * nat * nat) :=
  let fs := parquet_files w in
  imap (fun idx f => (f, idx, length fs)) fs.

(** The counters of the driver. *)
Record RunState := {
  processed_count : nat;
  skipped_count : nat;
  total_matches : nat;
  total_notes_processed : nat;
  errors : list string
}.

Definition start : RunState :=
  {| processed_count := 0; skipped_count := 0; total_matches := 0;
     total_notes_processed := 0; errors := [] |}.

(** [if error:] *)
Definition truthy (error : option string) : bool :=
  match error with
  | Some (String _ _) => true
  | _ => false
  end.

Definition tally (st : RunState) (summary : Summary) : RunState :=
  let file_name := fst (fst (fst summary)) in
  let num_matches := snd (fst (fst summary)) in
  let num_notes := snd (fst summary) in
  let error := snd summary in
  if truthy error then
    {| processed_count := processed_count st;
       skipped_count := skipped_count st;
       total_matches := total_matches st;
       total_notes_processed := total_notes_processed st;
       errors := (errors st ++ [file_name +:+ ": " +:+ default "" error])%list |}
  else
    match num_matches with
    | SKIPPED =>
        {| processed_count := processed_count st;
           skipped_count := skipped_count st + 1;
           total_matches := total_matches st;
           total_notes_processed := total_notes_processed st;
           errors := errors st |}
    | Count n =>
        {| processed_count := processed_count st + 1;
           skipped_count := skipped_count st;
           total_matches := total_matches st + n;
           total_notes_processed := total_notes_processed st + num_notes;
           errors := errors st |}
    end.

(** One turn of [for args in file_args]. *)
Definition drive_step (s : RunState * World) (args : string * nat * nat)
  : RunState * World :=
  let r := process_single_parquet args (snd s) in
  (tally (fst s) (fst r), snd r).

Definition drive (args : list (string * nat * nat)) (w : World)
  : RunState * World :=
  fold_left drive_step args (start, w).

Definition run_driver (w : World) : RunState * World :=
  drive (file_args w) w.

(** How the merge section ends: the final table was written; every
    intermediate file failed to load ("No valid intermediate results to
    merge."); there was no intermediate file ("No intermediate results
    found."); or writing the final table raised. *)
Inductive MergeOutcome :=
| Merged (final_df : list ResultRow)
| NoValidIntermediate
| NoIntermediate
| MergeRaised (e : Exn).

(** [glob.glob(f'{intermediate_path}*_results.csv')] *)
Definition all_intermediate_files (w : World) : list string :=
  filter (fun p => Path.glob_file intermediate_path "_results.csv" p = true)
    (map_to_list (files w)).*1.

(** The loop that loads the intermediate files, dropping those that raise. *)
Definition load_all (fs : list string) (w : World) : list (list ResultRow) :=
  omap (fun f => match read_csv f w with
                 | inr df => Some df
                 | inl _ => None
                 end) fs.

Definition final_output : string := results_path +:+ "aud_notes_keywords.csv".

Definition merge_results (w : World) : MergeOutcome * World :=
  match all_intermediate_files w with
  | [] => (NoIntermediate, w)
  | fs =>
      match load_all fs w with
      | [] => (NoValidIntermediate, w)
      | all_results =>
          let final_df := concat all_results in
          match to_csv final_output final_df w with
          | (inr _, w') => (Merged final_df, w')
          | (inl e, w') => (MergeRaised e, w')
          end
      end
  end.

(** The script from the driver loop to the end. *)
Definition main (w : World) : RunState * MergeOutcome * World :=
  let r := run_driver w in
  let m := merge_results (snd r) in
  (fst r, fst m, snd m).

End Run.

End Keywords.

(** ** The structured-code script *)

Module ICD.

(** A row of [aud_occurrence] once the condition rows whose code is in
    [AUD_ICD] have been left-merged with the visit table: the visit concept
    is missing (NaN) when the visit is unknown. *)
Record Occurrence := {
  person_id : Z;
  visit_concept_id : option Z
}.

Inductive Category :=
| inpatient
| outpatient.

(** [lambda x: 'inpatient' if x in [9201] else 'outpatient' if x in [9202]
    else None] *)
Definition visit_category (x : option Z) : option Category :=
  match x with
  | Some v => if (v =? 9201)%Z then Some inpatient
              else if (v =? 9202)%Z then Some outpatient
              else None
  | None => None
  end.

(** A row of the table [calculate_visit_counts] returns. *)
Record Counts := {
  patient : Z;
  inpatient_count : nat;
  outpatient_count : nat
}.

Definition one (p : Z) (c : Category) : Counts :=
  match c with
  | inpatient => {| patient := p; inpatient_count := 1; outpatient_count := 0 |}
  | outpatient => {| patient := p; inpatient_count := 0; outpatient_count := 1 |}
  end.

Definition incr (c : Category) (r : Counts) : Counts :=
  match c with
  | inpatient => {| patient := patient r;
                    inpatient_count := S (inpatient_count r);
                    outpatient_count := outpatient_count r |}
  | outpatient => {| patient := patient r;
                     inpatient_count := inpatient_count r;
                     outpatient_count := S (outpatient_count r) |}
  end.

(** Count one more row of patient [p] in category [c]; the table is kept in
    the order [groupby] gives it, by increasing [person_id]. *)
Fixpoint bump (p : Z) (c : Category) (t : list Counts) : list Counts :=
  match t with
  | [] => [one p c]
  | r :: t' =>
      if (p <? patient r)%Z then one p c :: t
      else if (p =? patient r)%Z then incr c r :: t'
      else r :: bump p c t'
  end.

(** A row without a category is dropped ([dropna]); another is counted for
    its patient and category. *)
Definition count_row (t : list Counts) (o : Occurrence) : list Counts :=
  match visit_category (visit_concept_id o) with
  | Some c => bump (person_id o) c t
  | None => t
  end.

(** The counts by patient and category, a missing combination counting 0. *)
Definition calculate_visit_counts (aud_occurrence : list Occurrence)
  : list Counts :=
  fold_left count_row aud_occurrence [].

Definition meets_rule (r : Counts) : bool :=
  (1 <=? inpatient_count r)%nat || (2 <=? outpatient_count r)%nat.

Definition filter_patients_by_visits (patient_counts : list Counts)
  : list Counts :=
  List.filter meets_rule patient_counts.

(** The table saved to [aud_patients_ICD_AUD_rule.csv]. *)
Definition saved_output (aud_occurrence : list Occurrence) : list Counts :=
  filter_patients_by_visits (calculate_visit_counts aud_occurrence).

(** The rows of [aud_occurrence] of one patient with one visit concept. *)
Definition visits (p v : Z) (aud_occurrence : list Occurrence) : nat :=
  length
    (List.filter
       (fun o => (person_id o =? p)%Z
                 && bool_decide (visit_concept_id o = Some v))
       aud_occurrence).


(** The order of the table: by increasing patient. *)
Definition by_patient (a b : Counts) : Prop := (patient a < patient b)%Z.

(** The row of a patient in the table. *)
Definition find_patient (p : Z) (t : list Counts) : option Counts :=
  List.find (fun r => (patient r =? p)%Z) t.

End ICD.

(** ** Vocabulary of the statements *)

Import Text Re Keywords.

(** No character of [s] is a sentence terminator. *)
Fixpoint unterminated (s : string) : bool :=
  match s with
  | EmptyString => true
  | String c s' => negb (is_terminator c) && unterminated s'
  end.

(** [s] is a run of one or more terminators. *)
Fixpoint terminators (s : string) : bool :=
  match s with
  | EmptyString => true
  | String c s' => is_terminator c && terminators s'
  end.

Definition separator (s : string) : bool :=
  negb (String.eqb s "") && terminators s.

(** [p0 sep0 p1 sep1 ... pn]: the pieces put back around the separators. *)
Fixpoint interleave (pieces seps : list string) : string :=
  match pieces, seps with
  | [], _ => EmptyString
  | p :: _, [] => p
  | p :: pieces', sep :: seps' => p +:+ sep +:+ interleave pieces' seps'
  end.

(** [s] is made of whitespace only. *)
Fixpoint blank (s : string) : bool :=
  match s with
  | EmptyString => true
  | String c s' => is_space c && blank s'
  end.

Fixpoint last_char (s : string) : option ascii :=
  match s with
  | EmptyString => None
  | String c EmptyString => Some c
  | String _ s' => last_char s'
  end.

Definition is_space_opt (o : option ascii) : bool :=
  match o with
  | Some c => is_space c
  | None => false
  end.

(** The trimmed sentences of a text that are long enough to be classified. *)
Definition candidates (text : string) : list string :=
  List.filter (fun s => (10 <=? len s)%nat) (map strip (re_split text)).

(** The sentence classifier's verdict, as the note classifier reads it:
    [is_valid and roots]. *)
Definition accepted (aud_patterns : Registry) (neg ctx legal : Pattern)
    (sentence : string) : bool :=
  let r := check_sentence_for_keywords sentence aud_patterns neg ctx legal in
  snd r && negb (bool_decide (fst r = [])).

Definition REQUIRED : list string :=
  ["OMOP_PERSON_ID"; "ENCOUNTER_ID"; "PHYSIOLOGIC_TIME"; "REPORT_TEXT"].

(** The row the processor builds for a note. *)
Definition row_of (interp : Interp) (aud_patterns : Registry)
    (note : NoteRecord) : ResultRow :=
  let r := process_note_text interp (REPORT_TEXT note) aud_patterns
             negation_pattern context_filter_pattern
             legal_admin_filter_pattern in
  {| person_id := OMOP_PERSON_ID note; note_id := ENCOUNTER_ID note;
     note_date := PHYSIOLOGIC_TIME note; aud_roots := fst (fst r);
     aud_roots_count := snd (fst r); matched_sentences := snd r |}.

Definition has_match (interp : Interp) (aud_patterns : Registry)
    (note : NoteRecord) : bool :=
  (0 <? aud_roots_count (row_of interp aud_patterns note))%nat.

(** ** The query and the merge of the structured-code script *)

Module ICDQuery.

Definition AUD_ICD_dotted : list string :=
  [ "303.0"; "303.01"; "303.02"; "303.03"; "303.00"; "303"; "303.9";
    "303.91"; "303.92"; "303.93"; "303.90";
    "305.0"; "305.01"; "305.02"; "305.03"; "305.00";
    "F10.1"; "F10.180"; "F10.14"; "F10.15"; "F10.150"; "F10.151"; "F10.159";
    "F10.181"; "F10.182"; "F10.12";
    "F10.121"; "F10.120"; "F10.129"; "F10.188"; "F10.18"; "F10.19";
    "F10.131"; "F10.132"; "F10.130"; "F10.139";
    "F10.11"; "F10.10"; "F10.13"; "F10.2"; "F10.280"; "F10.24"; "F10.26";
    "F10.27"; "F10.25"; "F10.250";
    "F10.251"; "F10.259"; "F10.281"; "F10.282"; "F10.22"; "F10.221";
    "F10.220"; "F10.229"; "F10.288"; "F10.28";
    "F10.29"; "F10.23"; "F10.231"; "F10.232"; "F10.230"; "F10.239";
    "F10.21"; "F10.20" ].

Definition caret : ascii := "^"%char.

(** [code.replace('.', '')] and [REPLACE(s, '.', '')] *)
Fixpoint remove_dots (s : string) : string :=
  match s with
  | EmptyString => EmptyString
  | String c s' => if Ascii.eqb c Path.dot then remove_dots s'
                   else String c (remove_dots s')
  end.

(** [AUD_ICD = [code.replace('.', '') for code in AUD_ICD]] *)
Definition AUD_ICD : list string := map remove_dots AUD_ICD_dotted.

(** The parts of [s] between the occurrences of [^^], found from the left. *)
Fixpoint split_carets (s : string) : list string :=
  match s with
  | EmptyString => [EmptyString]
  | String c s' =>
      match s' with
      | String d s'' =>
          if Ascii.eqb c caret && Ascii.eqb d caret
          then EmptyString :: split_carets s''
          else match split_carets s' with
               | p :: ps => String c p :: ps
               | [] => [String c EmptyString]
               end
      | EmptyString => [String c EmptyString]
      end
  end.

(** [SPLIT_PART(s, '^^', index)], [index] counting from 1: the empty string
    when there is no such part. *)
Definition split_part (s : string) (index : nat) : string :=
  nth (index - 1) (split_carets s) EmptyString.

(** [RTRIM(s, '^')] *)
Fixpoint rtrim_carets (s : string) : string :=
  match s with
  | EmptyString => EmptyString
  | String c s' =>
      match rtrim_carets s' with
      | EmptyString => if Ascii.eqb c caret then EmptyString
                       else String c EmptyString
      | r => String c r
      end
  end.

(** [REPLACE(RTRIM(SPLIT_PART(condition_source_value, '^^', 2), '^'), '.', '')] *)
Definition processed_code (condition_source_value : string) : string :=
  remove_dots (rtrim_carets (split_part condition_source_value 2)).

(** A row of the condition table; a missing field is NULL. *)
Record ConditionRow := {
  person_id : Z;
  condition_source_value : option string;
  visit_occurrence_id : option Z
}.

(** A row of the visit table. *)
Record VisitRow := {
  visit_id : option Z;
  visit_concept_id : option Z
}.

(** The WHERE clauses of the query. *)
Definition selected (r : ConditionRow) : bool :=
  match condition_source_value r with
  | Some s => bool_decide (processed_code s ∈ AUD_ICD)
  | None => false
  end.

(** The rows the query returns. *)
Definition query (conditions : list ConditionRow) : list ConditionRow :=
  List.filter selected conditions.

Definition same_visit (c : ConditionRow) (v : VisitRow) : bool :=
  bool_decide (visit_occurrence_id c = visit_id v).

(** [aud_occurrence.merge(all_visit, on='visit_occurrence_id', how='left')]:
    every row of the left table, once for each visit with its key (missing
    keys match each other), or once with a missing visit concept when there
    is none. *)
Definition merge_visits (aud_occurrence : list ConditionRow)
    (all_visit : list VisitRow) : list ICD.Occurrence :=
  flat_map
    (fun c =>
       match List.filter (same_visit c) all_visit with
       | [] => [{| ICD.person_id := person_id c;
                   ICD.visit_concept_id := None |}]
       | vs => map (fun v => {| ICD.person_id := person_id c;
                                ICD.visit_concept_id := visit_concept_id v |})
                 vs
       end)
    aud_occurrence.

(** The script from the two tables to the saved cohort. *)
Definition cohort (conditions : list ConditionRow) (all_visit : list VisitRow)
  : list ICD.Counts :=
  ICD.saved_output (merge_visits (query conditions) all_visit).




(** [s] holds a dot. *)
Fixpoint has_dot (s : string) : bool :=
  match s with
  | EmptyString => false
  | String c s' => Ascii.eqb c Path.dot || has_dot s'
  end.

End ICDQuery.


(** ** Sample inputs *)

Module Sample.

(** Three keyword rows, as [\bheavy drinking\b], [\b(?:alcoholism|alcoholic)\b]
    and [\betoh\b] would be compiled. *)
Definition registry : Registry :=
  [(word_alternation ["heavy drinking"], "heavy_drinking");
   (word_alternation ["alcoholism"; "alcoholic"], "alcoholism");
   (word_alternation ["etoh"], "etoh")].

(** Two processes with different hash salts: the slot of a root. *)
Definition salt_a (root : string) : nat := String.length root mod 8.
Definition salt_b (root : string) : nat := (3 * String.length root) mod 8.

Definition note_two_roots : string :=
  "Patient reports alcoholism and daily heavy drinking".

Definition note_short_fragment : string :=
  "ETOH. Seen today".

Definition cols : list string :=
  ["OMOP_PERSON_ID"; "ENCOUNTER_ID"; "PHYSIOLOGIC_TIME"; "REPORT_TEXT"].

Definition note_a : NoteRecord :=
  {| OMOP_PERSON_ID := 1; ENCOUNTER_ID := 10;
     PHYSIOLOGIC_TIME := "2020-01-01";
     REPORT_TEXT := Some "Patient reports daily heavy drinking." |}.

Definition note_b : NoteRecord :=
  {| OMOP_PERSON_ID := 2; ENCOUNTER_ID := 20;
     PHYSIOLOGIC_TIME := "2020-01-02";
     REPORT_TEXT := Some "Long history of alcoholism noted." |}.

Definition note_c : NoteRecord :=
  {| OMOP_PERSON_ID := 3; ENCOUNTER_ID := 30;
     PHYSIOLOGIC_TIME := "2020-01-03";
     REPORT_TEXT := Some "Patient denies heavy drinking." |}.

Definition note_d : NoteRecord :=
  {| OMOP_PERSON_ID := 4; ENCOUNTER_ID := 40;
     PHYSIOLOGIC_TIME := "2020-01-04"; REPORT_TEXT := None |}.

Definition part0 : string := notes_dir +:+ "p1/part-0.parquet".
Definition part1 : string := notes_dir +:+ "p1/part-1.parquet".
Definition other0 : string := notes_dir +:+ "p2/part-0.parquet".

Definition frame (notes : list NoteRecord) : DataFrame :=
  {| columns := cols; records := notes |}.

Definition world (store : gmap string Stored)
    (failing : gmap string (nat * Exn)) : World :=
  {| parquet_store := store; files := ∅; faults := failing; read_log := [] |}.

(** One partition directory holding two batch files, each with one note that
    matches. *)
Definition two_batches : World :=
  world (<[part0 := Table (frame [note_a])]>
           (<[part1 := Table (frame [note_b])]> ∅)) ∅.

(** One partition with two matching notes, one negated note and one note
    without text. *)
Definition one_batch : World :=
  world (<[part0 := Table (frame [note_a; note_c; note_b; note_d])]> ∅) ∅.

(** The same partition when the write of its results raises after the file
    was created and the header and one row were written. *)
Definition one_batch_write_fails : World :=
  world (<[part0 := Table (frame [note_a; note_c; note_b; note_d])]> ∅)
    {[ "results/intermediate_keywords/p1_results.csv"
       := (3%nat, "[Errno 5] Input/output error") ]}.

(** A partition whose file cannot be read, next to a sound one. *)
Definition one_unreadable : World :=
  world (<[part0 := Unreadable "Could not open Parquet input source"]>
           (<[other0 := Table (frame [note_b])]> ∅)) ∅.

(** A partition whose file lacks the text column, next to a sound one. *)
Definition one_without_text_column : World :=
  world (<[part0 := Table {| columns := ["OMOP_PERSON_ID"; "ENCOUNTER_ID";
                                        "PHYSIOLOGIC_TIME"];
                             records := [note_a] |}]>
           (<[other0 := Table (frame [note_b])]> ∅)) ∅.

Definition quiet0 : string := notes_dir +:+ "p3/part-0.parquet".

(** A partition without a matching note. *)
Definition quiet_batch : World :=
  world (<[quiet0 := Table (frame [note_c; note_d])]> ∅) ∅.


(** Condition rows of four patients: one inpatient stay; two outpatient
    visits; one outpatient and one emergency-room visit; one emergency-room
    visit and one visit of unknown kind. *)
Definition occurrences : list ICD.Occurrence :=
  [ {| ICD.person_id := 7; ICD.visit_concept_id := Some 9202%Z |};
    {| ICD.person_id := 5; ICD.visit_concept_id := Some 9201%Z |};
    {| ICD.person_id := 8; ICD.visit_concept_id := Some 9203%Z |};
    {| ICD.person_id := 7; ICD.visit_concept_id := Some 9202%Z |};
    {| ICD.person_id := 8; ICD.visit_concept_id := Some 9202%Z |};
    {| ICD.person_id := 9; ICD.visit_concept_id := Some 9203%Z |};
    {| ICD.person_id := 9; ICD.visit_concept_id := None |} ].

(** Condition rows: patient 1 has two alcohol codes recorded at one
    outpatient visit; patient 2 has one alcohol code at an emergency-room
    visit; patient 3 has a code that is not in the list; patient 4 has an
    alcohol code whose visit is unknown. *)
Definition conditions : list ICDQuery.ConditionRow :=
  [ {| ICDQuery.person_id := 1;
       ICDQuery.condition_source_value := Some "ICD10CM^^F10.20^";
       ICDQuery.visit_occurrence_id := Some 100%Z |};
    {| ICDQuery.person_id := 1;
       ICDQuery.condition_source_value := Some "ICD10CM^^F10.239^";
       ICDQuery.visit_occurrence_id := Some 100%Z |};
    {| ICDQuery.person_id := 2;
       ICDQuery.condition_source_value := Some "ICD9CM^^303.90^";
       ICDQuery.visit_occurrence_id := Some 200%Z |};
    {| ICDQuery.person_id := 3;
       ICDQuery.condition_source_value := Some "ICD10CM^^E11.9^";
       ICDQuery.visit_occurrence_id := Some 300%Z |};
    {| ICDQuery.person_id := 4;
       ICDQuery.condition_source_value := Some "ICD10CM^^F10.10^";
       ICDQuery.visit_occurrence_id := None |} ].

Definition all_visit : list ICDQuery.VisitRow :=
  [ {| ICDQuery.visit_id := Some 100%Z;
       ICDQuery.visit_concept_id := Some 9202%Z |};
    {| ICDQuery.visit_id := Some 200%Z;
       ICDQuery.visit_concept_id := Some 9203%Z |};
    {| ICDQuery.visit_id := Some 300%Z;
       ICDQuery.visit_concept_id := Some 9201%Z |} ].

End Sample.

(** ** Sentence splitting and trimming *)

Lemma re_split_nonempty (s : string) : re_split s ≠ [].
Proof.
  induction s as [|c s IH]; simpl; [discriminate|].
  destruct (is_terminator c).
  - destruct (head s) as [d|]; [destruct (is_terminator d)|]; auto; discriminate.
  - destruct (re_split s); discriminate.
Qed.

Lemma re_split_after_terminator (c : ascii) (s : string) :
  is_terminator c = true →
  ∃ ps, re_split (String c s) = EmptyString :: ps ∧ ps ≠ [].
Proof.
  revert c. induction s as [|d s IH]; intros c Hc; simpl; rewrite Hc.
  - exists [EmptyString]. split; [reflexivity | discriminate].
  - simpl. destruct (is_terminator d) eqn:Hd.
    + destruct (IH d Hd) as (ps & Hps & Hne). simpl in Hps. rewrite Hd in Hps.
      exists ps. split; assumption.
    + eexists. split; [reflexivity|].
      pose proof (re_split_nonempty (String d s)) as Hn. simpl in Hn.
      rewrite Hd in Hn. exact Hn.
Qed.

Lemma separator_cons (c : ascii) (s : string) :
  is_terminator c = true → terminators s = true →
  separator (String c s) = true.
Proof. intros Hc Hs. unfold separator. simpl. rewrite Hc, Hs. reflexivity. Qed.

(** [re_split] cuts the text at runs of one or more terminators: the pieces
    hold no terminator, and putting them back around suitable runs of
    terminators gives the text. *)
Lemma re_split_reconstruct (s : string) :
  ∃ seps, length (re_split s) = S (length seps)
          ∧ forallb separator seps = true
          ∧ forallb unterminated (re_split s) = true
          ∧ interleave (re_split s) seps = s.
Proof.
  induction s as [|c s IH].
  - exists []. repeat split; reflexivity.
  - destruct IH as (seps & Hlen & Hsep & Hun & Hint).
    destruct (is_terminator c) eqn:Hc.
    + destruct s as [|d s'].
      * exists [String c EmptyString]. simpl. rewrite Hc. simpl.
        repeat split; try reflexivity.
        unfold separator. simpl. rewrite Hc. reflexivity.
      * destruct (is_terminator d) eqn:Hd.
        -- destruct (re_split_after_terminator d s' Hd) as (ps & Hps & Hne).
           assert (Hrs : re_split (String c (String d s')) = re_split (String d s'))
             by (simpl; rewrite Hc, Hd; reflexivity).
           rewrite Hrs. rewrite Hps in *.
           destruct seps as [|sep seps'].
           { destruct ps; [congruence | simpl in Hlen; lia]. }
           exists (String c sep :: seps').
           simpl in Hsep. apply andb_true_iff in Hsep as [Hs1 Hs2].
           unfold separator in Hs1. apply andb_true_iff in Hs1 as [_ Hs1].
           repeat split.
           ++ exact Hlen.
           ++ simpl. rewrite (separator_cons c sep Hc Hs1). exact Hs2.
           ++ exact Hun.
           ++ cbn [interleave] in Hint |- *. rewrite <- Hint. reflexivity.
        -- assert (Hrs : re_split (String c (String d s'))
                         = EmptyString :: re_split (String d s'))
             by (simpl; rewrite Hc, Hd; reflexivity).
           rewrite Hrs. exists (String c EmptyString :: seps).
           repeat split.
           ++ cbn [length]. f_equal. exact Hlen.
           ++ simpl. rewrite Hsep.
              unfold separator. simpl. rewrite Hc. reflexivity.
           ++ cbn [forallb unterminated andb negb]. exact Hun.
           ++ change (String c (interleave (re_split (String d s')) seps)
                      = String c (String d s')).
              rewrite Hint. reflexivity.
    + assert (Hrs : re_split (String c s)
                    = match re_split s with
                      | p :: ps => String c p :: ps
                      | [] => [String c EmptyString]
                      end)
        by (simpl; rewrite Hc; reflexivity).
      rewrite Hrs. destruct (re_split s) as [|p ps] eqn:E;
        [simpl in Hlen; lia|].
      exists seps. simpl in Hun. apply andb_true_iff in Hun as [Hp Hps].
      repeat split.
      * exact Hlen.
      * exact Hsep.
      * simpl. rewrite Hc, Hp, Hps. reflexivity.
      * destruct seps as [|sep seps']; cbn [interleave] in Hint |- *;
          rewrite <- Hint; reflexivity.
Qed.

Lemma lstrip_split (s : string) :
  ∃ l, blank l = true ∧ s = l +:+ lstrip s
       ∧ is_space_opt (head (lstrip s)) = false.
Proof.
  induction s as [|c s (l & Hl & Hs & Hh)].
  - exists EmptyString. repeat split.
  - simpl. destruct (is_space c) eqn:Hc.
    + exists (String c l). simpl. rewrite Hc, Hl.
      split; [reflexivity|]. split; [|exact Hh].
      change (String c s = String c (l +:+ lstrip s)). f_equal. exact Hs.
    + exists EmptyString. simpl. rewrite Hc.
      split; [reflexivity|]. split; reflexivity.
Qed.

Lemma rstrip_split (s : string) :
  ∃ r, blank r = true ∧ s = rstrip s +:+ r
       ∧ is_space_opt (last_char (rstrip s)) = false.
Proof.
  induction s as [|c s (r & Hr & Hs & Hl)].
  - exists EmptyString. repeat split.
  - simpl. destruct (rstrip s) as [|a b] eqn:E.
    + destruct (is_space c) eqn:Hc.
      * exists (String c r). simpl. rewrite Hc, Hr.
        split; [reflexivity|]. split; [|reflexivity].
        change (String c s = String c r). f_equal. exact Hs.
      * exists r. simpl. rewrite Hc.
        split; [exact Hr|]. split; [|reflexivity].
        change (String c s = String c r). f_equal. exact Hs.
    + exists r. split; [exact Hr|]. split; [|exact Hl].
      change (String c s = String c (String a b +:+ r)). f_equal. exact Hs.
Qed.

Lemma rstrip_head (s : string) :
  is_space_opt (head s) = false → is_space_opt (head (rstrip s)) = false.
Proof.
  destruct s as [|c s]; [reflexivity|]. simpl. intros Hc.
  destruct (rstrip s); [rewrite Hc|]; simpl; exact Hc.
Qed.

Lemma append_assoc (a b c : string) : (a +:+ b) +:+ c = a +:+ (b +:+ c).
Proof.
  induction a as [|x a IH]; [reflexivity|].
  change (String x ((a +:+ b) +:+ c) = String x (a +:+ (b +:+ c))).
  f_equal. exact IH.
Qed.

(** [strip] removes whitespace at both ends and nothing else. *)
Lemma strip_trims (s : string) :
  ∃ l r, blank l = true ∧ blank r = true ∧ s = l +:+ strip s +:+ r
         ∧ is_space_opt (head (strip s)) = false
         ∧ is_space_opt (last_char (strip s)) = false.
Proof.
  destruct (lstrip_split s) as (l & Hl & Hs & Hh).
  destruct (rstrip_split (lstrip s)) as (r & Hr & Hs' & Hlast).
  exists l, r. unfold strip. repeat split; try assumption.
  - rewrite <- Hs'. exact Hs.
  - apply rstrip_head. exact Hh.
Qed.

(** ** Sets of roots *)

Lemma set_add_elem (x y : string) (s : PySet) :
  y ∈ set_add x s ↔ y ∈ s ∨ y = x.
Proof.
  unfold set_add. case_decide as Hx.
  - split; [auto | intros [H | ->]; assumption].
  - rewrite elem_of_app, list_elem_of_singleton. reflexivity.
Qed.

Lemma set_add_NoDup (x : string) (s : PySet) : NoDup s → NoDup (set_add x s).
Proof.
  intros Hs. unfold set_add. case_decide as Hx; [exact Hs|].
  apply NoDup_app. split; [exact Hs|]. split.
  - intros y Hy Hy'. apply list_elem_of_singleton in Hy'. subst. contradiction.
  - apply NoDup_singleton.
Qed.

Lemma add_all_elem (l : list string) (s : PySet) (y : string) :
  y ∈ fold_left (fun acc x => set_add x acc) l s ↔ y ∈ s ∨ y ∈ l.
Proof.
  revert s. induction l as [|x l IH]; intros s; simpl.
  - rewrite elem_of_nil. tauto.
  - rewrite IH, set_add_elem, elem_of_cons. tauto.
Qed.

Lemma add_all_NoDup (l : list string) (s : PySet) :
  NoDup s → NoDup (fold_left (fun acc x => set_add x acc) l s).
Proof.
  revert s. induction l as [|x l IH]; intros s Hs; simpl; [exact Hs|].
  apply IH, set_add_NoDup, Hs.
Qed.

Lemma set_update_elem (interp : Interp) (other s : PySet) (y : string) :
  y ∈ set_update interp other s ↔ y ∈ s ∨ y ∈ other.
Proof.
  unfold set_update. rewrite add_all_elem.
  rewrite (set_iter_perm interp other). reflexivity.
Qed.

Lemma set_update_NoDup (interp : Interp) (other s : PySet) :
  NoDup s → NoDup (set_update interp other s).
Proof. apply add_all_NoDup. Qed.

(** ** The sentence classifier *)

Lemma scan_patterns_elem (sentence : string) (aud_patterns : Registry)
    (acc : PySet) (root : string) :
  root ∈ scan_patterns sentence aud_patterns acc
  ↔ root ∈ acc
    ∨ ∃ p, (p, root) ∈ aud_patterns ∧ search p sentence = true.
Proof.
  unfold scan_patterns. revert acc.
  induction aud_patterns as [|[p r] ps IH]; intros acc; simpl.
  - split; [auto | intros [H | (p & H & _)]; [exact H|]].
    apply elem_of_nil in H. contradiction.
  - rewrite IH. destruct (search p sentence) eqn:Hp.
    + rewrite set_add_elem. split.
      * intros [[H | ->] | (q & Hq & Hs)]; [auto | |].
        -- right. exists p. split; [apply elem_of_cons; auto | exact Hp].
        -- right. exists q. split; [apply elem_of_cons; auto | exact Hs].
      * intros [H | (q & Hq & Hs)]; [auto|].
        apply elem_of_cons in Hq as [Hq | Hq].
        -- inversion Hq; subst. auto.
        -- right. exists q. auto.
    + split.
      * intros [H | (q & Hq & Hs)]; [auto|].
        right. exists q. split; [apply elem_of_cons; auto | exact Hs].
      * intros [H | (q & Hq & Hs)]; [auto|].
        apply elem_of_cons in Hq as [Hq | Hq].
        -- inversion Hq; subst. congruence.
        -- right. exists q. auto.
Qed.

Lemma scan_patterns_NoDup (sentence : string) (aud_patterns : Registry)
    (acc : PySet) :
  NoDup acc → NoDup (scan_patterns sentence aud_patterns acc).
Proof.
  unfold scan_patterns. revert acc.
  induction aud_patterns as [|[p r] ps IH]; intros acc Hacc; simpl;
    [exact Hacc|].
  apply IH. destruct (search p sentence); [apply set_add_NoDup|]; exact Hacc.
Qed.

(** C1. The sentence classifier returns the empty set and [False] as soon as
    the negation, the context or the legal/administrative pattern matches,
    whatever the keyword patterns would find; otherwise it returns the roots
    of all the keyword patterns that match, each once, and the verdict is
    valid exactly when that set is not empty. *)
Theorem check_sentence_for_keywords_verdict (sentence : string)
    (aud_patterns : Registry) (neg ctx legal : Pattern) :
  let r := check_sentence_for_keywords sentence aud_patterns neg ctx legal in
  (if search neg sentence || search ctx sentence || search legal sentence
   then r = ([], false)
   else (∀ root, root ∈ fst r
                 ↔ ∃ p, (p, root) ∈ aud_patterns ∧ search p sentence = true)
        ∧ NoDup (fst r)
        ∧ (snd r = true ↔ fst r ≠ [])).
Proof.
  unfold check_sentence_for_keywords.
  destruct (search neg sentence); [reflexivity|].
  destruct (search ctx sentence); [reflexivity|].
  destruct (search legal sentence); [reflexivity|].
  cbn [orb fst snd]. split; [|split].
  - intros root. rewrite scan_patterns_elem. split.
    + intros [H | H]; [apply elem_of_nil in H; contradiction | exact H].
    + auto.
  - apply scan_patterns_NoDup, NoDup_nil_2.
  - destruct (scan_patterns sentence aud_patterns []); simpl.
    + split; [discriminate | congruence].
    + split; [discriminate | reflexivity].
Qed.

(** ** The fixed patterns ignore case *)










(** Negation and family context win over a keyword; without them the keyword
    is reported, whatever its case. *)
Example suppression_precedence :
  check_sentence_for_keywords "patient denies heavy drinking" Sample.registry
    negation_pattern context_filter_pattern legal_admin_filter_pattern
  = ([], false)
  ∧ check_sentence_for_keywords "family history of alcoholism" Sample.registry
      negation_pattern context_filter_pattern legal_admin_filter_pattern
    = ([], false)
  ∧ check_sentence_for_keywords "signed consent form about alcoholism"
      Sample.registry negation_pattern context_filter_pattern
      legal_admin_filter_pattern
    = ([], false)
  ∧ check_sentence_for_keywords "patient reports daily Heavy Drinking"
      Sample.registry negation_pattern context_filter_pattern
      legal_admin_filter_pattern
    = (["heavy_drinking"], true)
  ∧ check_sentence_for_keywords "alcoholic with HEAVY DRINKING, etoh daily"
      Sample.registry negation_pattern context_filter_pattern
      legal_admin_filter_pattern
    = (["heavy_drinking"; "alcoholism"; "etoh"], true)
  ∧ check_sentence_for_keywords "patient reports daily exercise"
      Sample.registry negation_pattern context_filter_pattern
      legal_admin_filter_pattern
    = ([], false).
Proof. repeat split; vm_compute; reflexivity. Qed.

(** ** The note classifier *)

Lemma short_guard (s : string) :
  String.eqb s "" || (len s <? 10)%nat = negb (10 <=? len s)%nat.
Proof.
  destruct s as [|c s]; [reflexivity|].
  cbn [String.eqb orb]. apply Nat.ltb_antisym.
Qed.

Lemma note_step_short (interp : Interp) (aud_patterns : Registry)
    (neg ctx legal : Pattern) (st : PySet * list string) (sentence : string) :
  (10 <=? len (strip sentence))%nat = false →
  note_step interp aud_patterns neg ctx legal st sentence = st.
Proof.
  intros H. unfold note_step. rewrite short_guard, H. reflexivity.
Qed.

Lemma note_step_long (interp : Interp) (aud_patterns : Registry)
    (neg ctx legal : Pattern) (st : PySet * list string) (sentence : string) :
  (10 <=? len (strip sentence))%nat = true →
  note_step interp aud_patterns neg ctx legal st sentence
  = if accepted aud_patterns neg ctx legal (strip sentence)
    then (set_update interp
            (fst (check_sentence_for_keywords (strip sentence) aud_patterns
                    neg ctx legal)) (fst st),
          (snd st ++ [strip sentence])%list)
    else st.
Proof.
  intros H. unfold note_step, accepted. rewrite short_guard, H. reflexivity.
Qed.

(** The loop over the sentences, read off the list of candidates: the
    matched sentences are the accepted candidates in order, and the set of
    roots gathers the roots of the accepted candidates. *)
Lemma fold_note_step (interp : Interp) (aud_patterns : Registry)
    (neg ctx legal : Pattern) (sentences : list string)
    (st : PySet * list string) :
  let st' :=
    fold_left (note_step interp aud_patterns neg ctx legal) sentences st in
  let long := List.filter (fun s => (10 <=? len s)%nat) (map strip sentences) in
  snd st' = (snd st ++ List.filter (accepted aud_patterns neg ctx legal) long)%list
  ∧ (∀ root, root ∈ fst st'
       ↔ root ∈ fst st
         ∨ ∃ s, s ∈ long ∧ accepted aud_patterns neg ctx legal s = true
                ∧ root ∈ fst (check_sentence_for_keywords s aud_patterns
                                neg ctx legal))
  ∧ (NoDup (fst st) → NoDup (fst st')).
Proof.
  revert st. induction sentences as [|x xs IH]; intros st; cbn zeta.
  - simpl. rewrite app_nil_r. split; [reflexivity|]. split; [|auto].
    intros root. split; [auto|]. intros [H | (s & Hs & _)]; [exact H|].
    apply elem_of_nil in Hs. contradiction.
  - cbn [fold_left map List.filter].
    destruct (10 <=? len (strip x))%nat eqn:Hlong.
    + rewrite (note_step_long _ _ _ _ _ _ _ Hlong).
      cbn [List.filter].
      destruct (accepted aud_patterns neg ctx legal (strip x)) eqn:Hacc.
      * specialize (IH (set_update interp
            (fst (check_sentence_for_keywords (strip x) aud_patterns
                    neg ctx legal)) (fst st),
          (snd st ++ [strip x])%list)).
        cbn zeta in IH. cbn [fst snd] in IH.
        destruct IH as (IH1 & IH2 & IH3). split; [|split].
        -- rewrite IH1, <- app_assoc. reflexivity.
        -- intros root. rewrite IH2, set_update_elem. split.
           ++ intros [[H | H] | (s & Hs & Ha & Hr)]; [auto | |].
              ** right. exists (strip x). split; [apply elem_of_cons; auto|].
                 split; assumption.
              ** right. exists s. split; [apply elem_of_cons; auto|].
                 split; assumption.
           ++ intros [H | (s & Hs & Ha & Hr)]; [auto|].
              apply elem_of_cons in Hs as [-> | Hs]; [auto|].
              right. exists s. auto.
        -- intros Hnd. apply IH3, set_update_NoDup, Hnd.
      * specialize (IH st). cbn zeta in IH.
        destruct IH as (IH1 & IH2 & IH3). split; [|split].
        -- exact IH1.
        -- intros root. rewrite IH2. split.
           ++ intros [H | (s & Hs & Ha & Hr)]; [auto|].
              right. exists s. split; [apply elem_of_cons; auto|].
              split; assumption.
           ++ intros [H | (s & Hs & Ha & Hr)]; [auto|].
              apply elem_of_cons in Hs as [-> | Hs]; [congruence|].
              right. exists s. auto.
        -- exact IH3.
    + rewrite (note_step_short _ _ _ _ _ _ _ Hlong). apply IH.
Qed.

(** The accumulated set is enumerated without loss or repetition. *)
Lemma process_note_text_shape (interp : Interp) (text : string)
    (aud_patterns : Registry) (neg ctx legal : Pattern) :
  ∃ all_aud_roots : PySet,
    process_note_text interp (Some text) aud_patterns neg ctx legal
    = (set_iter interp all_aud_roots, length all_aud_roots,
       List.filter (accepted aud_patterns neg ctx legal) (candidates text))
    ∧ NoDup all_aud_roots
    ∧ ∀ root, root ∈ all_aud_roots
        ↔ ∃ s, s ∈ candidates text
               ∧ accepted aud_patterns neg ctx legal s = true
               ∧ root ∈ fst (check_sentence_for_keywords s aud_patterns
                               neg ctx legal).
Proof.
  destruct text as [|c text].
  - exists []. split; [|split].
    + simpl. f_equal. f_equal.
      symmetry. apply Permutation_nil. symmetry.
      apply (set_iter_perm interp []).
    + apply NoDup_nil_2.
    + intros root. split.
      * intros H. apply elem_of_nil in H. contradiction.
      * intros (s & Hs & _). vm_compute in Hs. apply elem_of_nil in Hs.
        contradiction.
  - pose proof (fold_note_step interp aud_patterns neg ctx legal
                  (re_split (String c text)) ([], [])) as H.
    cbn zeta in H. destruct H as (H1 & H2 & H3).
    eexists. split; [|split].
    + unfold process_note_text. cbv zeta. rewrite H1. reflexivity.
    + apply H3, NoDup_nil_2.
    + intros root. rewrite H2. split.
      * intros [H | H]; [apply elem_of_nil in H; contradiction | exact H].
      * auto.
Qed.


(** A fragment under 10 characters is dropped although it holds a keyword. *)
Example short_fragment_excluded :
  check_sentence_for_keywords "ETOH" Sample.registry negation_pattern
    context_filter_pattern legal_admin_filter_pattern = (["etoh"], true)
  ∧ process_note_text (slot_order Sample.salt_a)
      (Some Sample.note_short_fragment) Sample.registry negation_pattern
      context_filter_pattern legal_admin_filter_pattern = ([], 0%nat, []).
Proof. split; vm_compute; reflexivity. Qed.

(** The count returned with the roots is their number. *)
Lemma process_note_text_count (interp : Interp) (text : option string)
    (aud_patterns : Registry) (neg ctx legal : Pattern) :
  let out := process_note_text interp text aud_patterns neg ctx legal in
  snd (fst out) = length (fst (fst out)).
Proof.
  cbn zeta. destruct text as [text|]; [|reflexivity].
  destruct (process_note_text_shape interp text aud_patterns neg ctx legal)
    as (all & Hout & _).
  rewrite Hout. cbn [fst snd]. symmetry.
  apply Permutation_length, set_iter_perm.
Qed.

Lemma getitem_present {A} (df : DataFrame) (col : string) (v : A) :
  col ∈ columns df → getitem df col v = inr v.
Proof. intros H. unfold getitem. rewrite decide_True by exact H. reflexivity. Qed.

Lemma row_step_present (interp : Interp) (aud_patterns : Registry)
    (df : DataFrame) (st : list ResultRow * nat) (note : NoteRecord) :
  REQUIRED ⊆ columns df →
  row_step interp aud_patterns df (inr st) note
  = if has_match interp aud_patterns note
    then inr ((fst st ++ [row_of interp aud_patterns note])%list,
              (snd st + 1)%nat)
    else inr st.
Proof.
  intros Hcols. unfold row_step, has_match, row_of.
  rewrite !getitem_present
    by (apply Hcols; unfold REQUIRED; set_solver).
  reflexivity.
Qed.

Lemma fold_row_step (interp : Interp) (aud_patterns : Registry)
    (df : DataFrame) (notes : list NoteRecord) (st : list ResultRow * nat) :
  REQUIRED ⊆ columns df →
  fold_left (row_step interp aud_patterns df) notes (inr st)
  = inr ((fst st ++ map (row_of interp aud_patterns)
                      (List.filter (has_match interp aud_patterns) notes))%list,
         (snd st + length (List.filter (has_match interp aud_patterns) notes))%nat).
Proof.
  intros Hcols. revert st. induction notes as [|n ns IH]; intros [rs k].
  - simpl. rewrite app_nil_r, Nat.add_0_r. reflexivity.
  - cbn [fold_left List.filter]. rewrite row_step_present by exact Hcols.
    destruct (has_match interp aud_patterns n).
    + rewrite IH. cbn [fst snd map length]. rewrite <- app_assoc.
      f_equal. f_equal. lia.
    + apply IH.
Qed.

Lemma classify_rows_present (interp : Interp)
    (aud_patterns : Registry) (df : DataFrame) :
  REQUIRED ⊆ columns df →
  classify_rows interp aud_patterns df
  = inr (map (row_of interp aud_patterns)
           (List.filter (has_match interp aud_patterns) (records df)),
         length (List.filter (has_match interp aud_patterns) (records df))).
Proof.
  intros Hcols. unfold classify_rows. rewrite fold_row_step by exact Hcols. reflexivity.
Qed.

(** C6. The count of a classified note is the number of its roots, and the
    rows collected for a file are those of the notes whose count is
    positive, one per such note and in order. *)
Theorem count_is_length_and_rows_need_a_match (interp : Interp)
    (aud_patterns : Registry) (df : DataFrame) :
  REQUIRED ⊆ columns df →
  let matched := List.filter (has_match interp aud_patterns) (records df) in
  classify_rows interp aud_patterns df
  = inr (map (row_of interp aud_patterns) matched, length matched)
  ∧ (∀ note, note ∈ matched
       ↔ note ∈ records df
         ∧ (0 < aud_roots_count (row_of interp aud_patterns note))%nat)
  ∧ (∀ note, aud_roots_count (row_of interp aud_patterns note)
             = length (aud_roots (row_of interp aud_patterns note))).
Proof.
  intros Hcols. cbn zeta. split; [|split].
  - apply classify_rows_present, Hcols.
  - intros note. rewrite !list_elem_of_In, filter_In. unfold has_match.
    rewrite Nat.ltb_lt. reflexivity.
  - intros note. unfold row_of. cbn [aud_roots_count aud_roots].
    apply process_note_text_count.
Qed.

Lemma count_is_length_and_rows_need_a_match_witness :
  classify_rows (slot_order Sample.salt_a) Sample.registry
    (Sample.frame [Sample.note_a; Sample.note_c; Sample.note_b; Sample.note_d])
  = inr ([row_of (slot_order Sample.salt_a) Sample.registry Sample.note_a;
          row_of (slot_order Sample.salt_a) Sample.registry Sample.note_b],
         2%nat).
Proof.
  refine (proj1 (count_is_length_and_rows_need_a_match
                   (slot_order Sample.salt_a) Sample.registry
                   (Sample.frame [Sample.note_a; Sample.note_c;
                                  Sample.note_b; Sample.note_d]) _)).
  unfold REQUIRED, Sample.frame, Sample.cols. simpl. set_solver.
Defined.

(** ** Determinism *)

Lemma note_step_same_iter (i1 i2 : Interp) :
  set_iter i1 = set_iter i2 → note_step i1 = note_step i2.
Proof.
  intros H. unfold note_step, set_update. rewrite H. reflexivity.
Qed.

(** C8, as the code has it. Whatever order the interpreter enumerates sets
    in, a note yields the same matched sentences in the same order, the same
    count, and the same roots each once; the order of the roots is that of
    the interpreter's enumeration, so that two runs agree on it when they
    enumerate sets alike. *)
Theorem process_note_text_deterministic_up_to_root_order (i1 i2 : Interp)
    (text : option string) (aud_patterns : Registry)
    (neg ctx legal : Pattern) :
  let o1 := process_note_text i1 text aud_patterns neg ctx legal in
  let o2 := process_note_text i2 text aud_patterns neg ctx legal in
  snd o1 = snd o2
  ∧ snd (fst o1) = snd (fst o2)
  ∧ fst (fst o1) ≡ₚ fst (fst o2)
  ∧ NoDup (fst (fst o1))
  ∧ (set_iter i1 = set_iter i2 → o1 = o2).
Proof.
  cbn zeta. destruct text as [text|].
  - destruct (process_note_text_shape i1 text aud_patterns neg ctx legal)
      as (all1 & H1 & Hnd1 & Hall1).
    destruct (process_note_text_shape i2 text aud_patterns neg ctx legal)
      as (all2 & H2 & Hnd2 & Hall2).
    assert (Hperm : all1 ≡ₚ all2).
    { apply NoDup_Permutation; [exact Hnd1 | exact Hnd2 |].
      intros x. rewrite Hall1, Hall2. reflexivity. }
    split; [|split; [|split; [|split]]].
    + rewrite H1, H2. reflexivity.
    + rewrite H1, H2. cbn [fst snd]. apply Permutation_length, Hperm.
    + rewrite H1, H2. cbn [fst snd].
      rewrite (set_iter_perm i1 all1), (set_iter_perm i2 all2). exact Hperm.
    + rewrite H1. cbn [fst snd]. rewrite (set_iter_perm i1 all1). exact Hnd1.
    + intros Hiter. unfold process_note_text.
      rewrite (note_step_same_iter i1 i2 Hiter), Hiter. reflexivity.
  - simpl. repeat split; auto using NoDup_nil_2.
Qed.

(** C8, as the specification words it, fails: two processes with different
    hash salts return the two roots of one note in different orders. *)
Lemma aud_roots_order_depends_on_hash_salt :
  ¬ (∀ (i1 i2 : Interp) (text : option string) (aud_patterns : Registry)
       (neg ctx legal : Pattern),
       process_note_text i1 text aud_patterns neg ctx legal
       = process_note_text i2 text aud_patterns neg ctx legal).
Proof.
  intros H.
  specialize (H (slot_order Sample.salt_a) (slot_order Sample.salt_b)
                (Some Sample.note_two_roots) Sample.registry negation_pattern
                context_filter_pattern legal_admin_filter_pattern).
  vm_compute in H. discriminate H.
Qed.

(** ** Writing a table *)

Lemma put_rows_lookup (path : string) (rows acc : list ResultRow)
    (fs : gmap string Csv) :
  fs !! path = Some (Sheet acc) →
  run_ops (map (PutRow path) rows) fs !! path = Some (Sheet (acc ++ rows)).
Proof.
  unfold run_ops. revert acc fs.
  induction rows as [|r rows IH]; intros acc fs Hfs; simpl.
  - rewrite app_nil_r. exact Hfs.
  - rewrite (IH (acc ++ [r])%list).
    + rewrite <- app_assoc. reflexivity.
    + rewrite Hfs. apply lookup_insert_eq.
Qed.

Lemma apply_op_other (op : FsOp) (path p : string) (fs : gmap string Csv) :
  (match op with Create q | PutHeader q | PutRow q _ => q end) = path →
  p ≠ path → apply_op op fs !! p = fs !! p.
Proof.
  intros Hop Hp. destruct op as [q|q|q r]; simpl in *; subst q.
  - apply lookup_insert_ne. congruence.
  - apply lookup_insert_ne. congruence.
  - destruct (fs !! path) as [[|rs]|]; apply lookup_insert_ne; congruence.
Qed.

Lemma run_ops_other (ops : list FsOp) (path p : string)
    (fs : gmap string Csv) :
  Forall (fun op => (match op with Create q | PutHeader q | PutRow q _ => q end)
                    = path) ops →
  p ≠ path → run_ops ops fs !! p = fs !! p.
Proof.
  unfold run_ops. intros Hops Hp. revert fs.
  induction Hops as [|op ops Hop _ IH]; intros fs; simpl; [reflexivity|].
  rewrite IH. apply (apply_op_other op path p fs Hop Hp).
Qed.

Lemma to_csv_ops_path (path : string) (rows : list ResultRow) :
  Forall (fun op => (match op with Create q | PutHeader q | PutRow q _ => q end)
                    = path) (to_csv_ops path rows).
Proof.
  unfold to_csv_ops. repeat constructor.
  induction rows; simpl; constructor; auto.
Qed.

(** A complete write leaves the whole table at the path. *)
Lemma to_csv_ops_complete (path : string) (rows : list ResultRow)
    (fs : gmap string Csv) :
  run_ops (to_csv_ops path rows) fs !! path = Some (Sheet rows).
Proof.
  unfold to_csv_ops.
  change (run_ops (map (PutRow path) rows)
            (<[path := Sheet []]> (<[path := EmptyFile]> fs)) !! path
          = Some (Sheet ([] ++ rows))).
  apply put_rows_lookup, lookup_insert_eq.
Qed.

(** A write touches no other path, whether it completes or not. *)
Lemma to_csv_other (path p : string) (rows : list ResultRow) (w : World) :
  p ≠ path → files (snd (to_csv path rows w)) !! p = files w !! p.
Proof.
  intros Hp. unfold to_csv, interrupted.
  pose proof (to_csv_ops_path path rows) as Hops.
  destruct (faults w !! path) as [[k e]|]; [destruct (k <? _)%nat|];
    cbn [snd files with_files]; apply (run_ops_other _ path); auto.
  apply Forall_take, Hops.
Qed.

(** ** The per-file processor *)

(** C3. When the output file of a partition is already there, the processor
    answers ['SKIPPED'] with zero notes and no error, reads nothing, and
    leaves every file as it was. *)
Theorem existing_artifact_is_skipped (interp : Interp)
    (aud_patterns : Registry) (args : string * nat * nat) (w : World) :
  exists_ (output_file_of (fst (fst args))) w = true →
  let r := process_single_parquet interp aud_patterns args w in
  fst r = (file_name_of (fst (fst args)), SKIPPED, 0%nat, None)
  ∧ snd r = w
  ∧ read_log (snd r) = read_log w
  ∧ files (snd r) !! output_file_of (fst (fst args))
    = files w !! output_file_of (fst (fst args)).
Proof.
  intros Hex. unfold process_single_parquet. rewrite Hex. cbn zeta.
  repeat split.
Qed.

(** A second run on the partition just processed. *)
Lemma existing_artifact_is_skipped_witness :
  let first_run :=
    process_single_parquet (slot_order Sample.salt_a) Sample.registry
      (Sample.part0, 0%nat, 1%nat) Sample.one_batch in
  let second_run :=
    process_single_parquet (slot_order Sample.salt_a) Sample.registry
      (Sample.part0, 0%nat, 1%nat) (snd first_run) in
  fst second_run = ("p1", SKIPPED, 0%nat, None)
  ∧ snd second_run = snd first_run
  ∧ read_log (snd second_run) = read_log (snd first_run)
  ∧ files (snd second_run) !! output_file_of Sample.part0
    = files (snd first_run) !! output_file_of Sample.part0.
Proof.
  cbv zeta.
  refine (existing_artifact_is_skipped (slot_order Sample.salt_a)
            Sample.registry (Sample.part0, 0%nat, 1%nat)
            (snd (process_single_parquet (slot_order Sample.salt_a)
                    Sample.registry (Sample.part0, 0%nat, 1%nat)
                    Sample.one_batch)) _).
  vm_compute. reflexivity.
Defined.

(** When nothing fails, a file not yet processed is read once, every note is
    classified, and the rows of the matching notes are written to the output
    path of its directory (no file is written when no note matches). *)
Lemma process_single_parquet_fresh (interp : Interp)
    (aud_patterns : Registry) (args : string * nat * nat) (w : World)
    (df : DataFrame) :
  exists_ (output_file_of (fst (fst args))) w = false →
  parquet_store w !! fst (fst args) = Some (Table df) →
  REQUIRED ⊆ columns df →
  faults w !! output_file_of (fst (fst args)) = None →
  let matched := List.filter (has_match interp aud_patterns) (records df) in
  let r := process_single_parquet interp aud_patterns args w in
  fst r = (file_name_of (fst (fst args)), Count (length matched),
           length (records df), None)
  ∧ read_log (snd r) = (read_log w ++ [fst (fst args)])%list
  ∧ files (snd r) !! output_file_of (fst (fst args))
    = match matched with
      | [] => None
      | _ => Some (Sheet (map (row_of interp aud_patterns) matched))
      end.
Proof.
  intros Hex Hstore Hcols Hfault. cbn zeta.
  unfold process_single_parquet. rewrite Hex.
  unfold process_body, read_parquet. rewrite Hstore.
  rewrite (classify_rows_present interp aud_patterns df Hcols).
  assert (Hnone : files w !! output_file_of (fst (fst args)) = None).
  { unfold exists_ in Hex. apply bool_decide_eq_false in Hex.
    destruct (files w !! output_file_of (fst (fst args))) eqn:E;
      [exfalso; apply Hex; eauto | reflexivity]. }
  destruct (List.filter (has_match interp aud_patterns) (records df))
    as [|n ns] eqn:Hm.
  - cbn [map length fst snd]. repeat split. exact Hnone.
  - cbn [map]. unfold to_csv. cbn [faults]. rewrite Hfault.
    cbn [fst snd files with_files read_log]. repeat split.
    apply to_csv_ops_complete.
Qed.

(** ** Interrupted and failed writes *)

Lemma to_csv_ops_take (path : string) (rows : list ResultRow) (k : nat) :
  firstn (S (S k)) (to_csv_ops path rows)
  = to_csv_ops path (firstn k rows).
Proof.
  unfold to_csv_ops. cbn [firstn]. rewrite firstn_map. reflexivity.
Qed.

(** X11. A write that stops anywhere between the opening of the file and its last
    row leaves a file at the path that is not the table: an empty file, or
    the header and a strict prefix of the rows. *)
Lemma interrupted_write_is_partial (path : string) (rows : list ResultRow)
    (w : World) (k : nat) :
  (1 ≤ k)%nat → (k < length (to_csv_ops path rows))%nat →
  ∃ c, files (interrupted k (to_csv_ops path rows) w) !! path = Some c
       ∧ c ≠ Sheet rows.
Proof.
  intros Hk1 Hk2. unfold interrupted. cbn [files with_files].
  destruct k as [|[|k]]; [lia| |].
  - exists EmptyFile. split; [|discriminate].
    unfold to_csv_ops, run_ops. simpl. apply lookup_insert_eq.
  - exists (Sheet (firstn k rows)). split.
    + rewrite to_csv_ops_take. apply to_csv_ops_complete.
    + intros H. inversion H as [Hrows].
      apply (f_equal (@length ResultRow)) in Hrows.
      rewrite length_firstn in Hrows.
      unfold to_csv_ops in Hk2. simpl in Hk2. rewrite length_map in Hk2. lia.
Qed.

(** C2. The processor writes its results straight to the output path.  On a
    partition with two matching notes: an uninterrupted run leaves both rows
    there; killed after the file was opened, it leaves an empty file; killed
    after the first row, it leaves that row alone, and the next run takes
    the partition for done; and when the write itself raises after the first
    row, the partition is reported failed while the truncated file stays. *)
Theorem write_to_output_path_is_not_atomic :
  let interp := slot_order Sample.salt_a in
  let args := (Sample.part0, 0%nat, 1%nat) in
  let out := output_file_of Sample.part0 in
  let row_a := row_of interp Sample.registry Sample.note_a in
  let row_b := row_of interp Sample.registry Sample.note_b in
  let writing := snd (read_parquet Sample.part0 Sample.one_batch) in
  let ops := to_csv_ops out [row_a; row_b] in
  let done := process_single_parquet interp Sample.registry args
                Sample.one_batch in
  let failed := process_single_parquet interp Sample.registry args
                  Sample.one_batch_write_fails in
  done = (("p1", Count 2, 4%nat, None), interrupted 4 ops writing)
  ∧ files (snd done) !! out = Some (Sheet [row_a; row_b])
  ∧ files (interrupted 1 ops writing) !! out = Some EmptyFile
  ∧ files (interrupted 3 ops writing) !! out = Some (Sheet [row_a])
  ∧ fst (process_single_parquet interp Sample.registry args
           (interrupted 3 ops writing))
    = ("p1", SKIPPED, 0%nat, None)
  ∧ fst failed
    = ("p1", Count 0, 0%nat, Some "Error: [Errno 5] Input/output error")
  ∧ files (snd failed) !! out = Some (Sheet [row_a]).
Proof. cbv zeta. repeat split; vm_compute; reflexivity. Qed.

(** C4. A partition directory with two batch files, each holding one note
    that matches: the driver finds both files, processes the first, and
    skips the second unread because the output file of the directory is
    already there; the artifact and the merged table hold the first file's
    row only. *)
Theorem later_batch_files_of_a_partition_are_skipped :
  let interp := slot_order Sample.salt_a in
  let r := main interp Sample.registry Sample.two_batches in
  let row_a := row_of interp Sample.registry Sample.note_a in
  parquet_files Sample.two_batches = [Sample.part0; Sample.part1]
  ∧ output_file_of Sample.part0 = output_file_of Sample.part1
  ∧ has_match interp Sample.registry Sample.note_b = true
  ∧ fst (fst r)
    = {| processed_count := 1; skipped_count := 1; total_matches := 1;
         total_notes_processed := 1; errors := [] |}
  ∧ read_log (snd r) = [Sample.part0]
  ∧ files (snd r) !! output_file_of Sample.part0 = Some (Sheet [row_a])
  ∧ snd (fst r) = Merged [row_a].
Proof. cbv zeta. repeat split; vm_compute; reflexivity. Qed.

(** ** Failures of one file *)

(** Whatever the body of the [try] block raises comes back as a summary with
    zero counts and the message. *)
Lemma process_single_parquet_catches (interp : Interp)
    (aud_patterns : Registry) (args : string * nat * nat) (w w' : World)
    (e : Exn) :
  exists_ (output_file_of (fst (fst args))) w = false →
  process_body interp aud_patterns (fst (fst args))
    (output_file_of (fst (fst args))) w = (inl e, w') →
  process_single_parquet interp aud_patterns args w
  = ((file_name_of (fst (fst args)), Count 0, 0%nat,
      Some ("Error: " +:+ e)), w').
Proof.
  intros Hex Hbody. unfold process_single_parquet. rewrite Hex, Hbody.
  reflexivity.
Qed.

(** X10. A file that cannot be loaded, or whose rows cannot be classified, leaves
    the files as they were. *)
Lemma failure_before_the_write_leaves_files (interp : Interp)
    (aud_patterns : Registry) (args : string * nat * nat) (w : World) :
  exists_ (output_file_of (fst (fst args))) w = false →
  match parquet_store w !! fst (fst args) with
  | Some (Table df) => ∃ e, classify_rows interp aud_patterns df = inl e
  | _ => True
  end →
  let r := process_single_parquet interp aud_patterns args w in
  (∃ e, fst r = (file_name_of (fst (fst args)), Count 0, 0%nat,
                 Some ("Error: " +:+ e)))
  ∧ files (snd r) = files w.
Proof.
  intros Hex Hfail. cbn zeta. unfold process_single_parquet. rewrite Hex.
  unfold process_body, read_parquet.
  destruct (parquet_store w !! fst (fst args)) as [[e|df]|].
  - split; [exists e|]; reflexivity.
  - destruct Hfail as [e He]. rewrite He. split; [exists e|]; reflexivity.
  - split; [eexists|]; reflexivity.
Qed.

Lemma tally_one (st : RunState) (summary : Summary) :
  (processed_count (tally st summary) + skipped_count (tally st summary)
   + length (errors (tally st summary))
   = S (processed_count st + skipped_count st + length (errors st)))%nat.
Proof.
  unfold tally. destruct (truthy (snd summary)).
  - cbn [processed_count skipped_count errors]. rewrite length_app. simpl. lia.
  - destruct (snd (fst (fst summary))); cbn [processed_count skipped_count errors];
      lia.
Qed.

(** X15. The driver goes through every file, whatever happens to the others: each
    file ends up counted once, as processed, skipped or failed. *)
Lemma drive_accounts_for_every_file (interp : Interp)
    (aud_patterns : Registry) (args : list (string * nat * nat))
    (st : RunState) (w : World) :
  let r := fold_left (drive_step interp aud_patterns) args (st, w) in
  (processed_count (fst r) + skipped_count (fst r) + length (errors (fst r))
   = processed_count st + skipped_count st + length (errors st)
     + length args)%nat.
Proof.
  cbn zeta. revert st w. induction args as [|a args IH]; intros st w.
  - simpl. lia.
  - cbn [fold_left length]. unfold drive_step at 2. cbn [fst snd].
    rewrite IH, tally_one. lia.
Qed.

(** C5. A partition whose write raises after the first row was written: the
    exception is caught, the partition is listed among the errors and counted
    neither as processed nor as skipped, yet its truncated file is merged
    and its first row is in the final table. *)
Theorem failed_write_still_feeds_the_merge :
  let interp := slot_order Sample.salt_a in
  let r := main interp Sample.registry Sample.one_batch_write_fails in
  let row_a := row_of interp Sample.registry Sample.note_a in
  fst (fst r)
  = {| processed_count := 0; skipped_count := 0; total_matches := 0;
       total_notes_processed := 0;
       errors := ["p1: Error: [Errno 5] Input/output error"] |}
  ∧ snd (fst r) = Merged [row_a]
  ∧ files (snd r) !! final_output = Some (Sheet [row_a]).
Proof. cbv zeta. repeat split; vm_compute; reflexivity. Qed.

(** A file that cannot be read, or that lacks a column, is reported and the
    next file is processed; the merged table holds the other file's row. *)
Example failed_load_is_contained :
  let interp := slot_order Sample.salt_a in
  let row_b := row_of interp Sample.registry Sample.note_b in
  let r1 := main interp Sample.registry Sample.one_unreadable in
  let r2 := main interp Sample.registry Sample.one_without_text_column in
  errors (fst (fst r1)) = ["p1: Error: Could not open Parquet input source"]
  ∧ processed_count (fst (fst r1)) = 1%nat
  ∧ snd (fst r1) = Merged [row_b]
  ∧ errors (fst (fst r2)) = ["p1: Error: 'REPORT_TEXT'"]
  ∧ processed_count (fst (fst r2)) = 1%nat
  ∧ snd (fst r2) = Merged [row_b].
Proof. cbv zeta. repeat split; vm_compute; reflexivity. Qed.

(** ** The merge *)

Lemma final_output_is_no_intermediate :
  Path.glob_file intermediate_path "_results.csv" final_output = false.
Proof. vm_compute. reflexivity. Qed.

(** X18. The merge leaves every intermediate file as it was. *)
Lemma merge_keeps_intermediate_files (w : World) (p : string) :
  Path.glob_file intermediate_path "_results.csv" p = true →
  files (snd (merge_results w)) !! p = files w !! p.
Proof.
  intros Hp. unfold merge_results.
  destruct (all_intermediate_files w) as [|f fs]; [reflexivity|].
  destruct (load_all (f :: fs) w) as [|d ds]; [reflexivity|].
  assert (Hne : p ≠ final_output).
  { intros ->. rewrite final_output_is_no_intermediate in Hp. discriminate. }
  pose proof (to_csv_other final_output p (concat (d :: ds)) w Hne) as H.
  destruct (to_csv final_output (concat (d :: ds)) w) as [[e|u] w'];
    exact H.
Qed.



(** ** The visit-count rule *)

Module ICDFacts.
Import ICD.

Lemma patient_one (p : Z) (c : Category) : patient (one p c) = p.
Proof. destruct c; reflexivity. Qed.

Lemma patient_incr (c : Category) (r : Counts) : patient (incr c r) = patient r.
Proof. destruct c; reflexivity. Qed.

Lemma find_below (p : Z) (t : list Counts) :
  Forall (fun r => (p < patient r)%Z) t → find_patient p t = None.
Proof.
  induction 1 as [|r t Hr _ IH]; [reflexivity|].
  unfold find_patient in *. simpl.
  destruct (Z.eqb_spec (patient r) p); [lia | exact IH].
Qed.

Lemma bump_above (r : Counts) (p : Z) (c : Category) (t : list Counts) :
  (patient r < p)%Z → Forall (by_patient r) t →
  Forall (by_patient r) (bump p c t).
Proof.
  intros Hp. induction 1 as [|x t Hx Ht IH]; simpl.
  - constructor; [|constructor]. unfold by_patient. rewrite patient_one.
    exact Hp.
  - destruct (p <? patient x)%Z.
    + constructor; [|constructor; assumption].
      unfold by_patient. rewrite patient_one. exact Hp.
    + destruct (p =? patient x)%Z.
      * constructor; [|assumption].
        unfold by_patient in *. rewrite patient_incr. exact Hx.
      * constructor; assumption.
Qed.

Lemma bump_sorted (p : Z) (c : Category) (t : list Counts) :
  StronglySorted by_patient t → StronglySorted by_patient (bump p c t).
Proof.
  induction 1 as [|r t Hs IH Hr]; simpl.
  - repeat constructor.
  - destruct (Z.ltb_spec p (patient r)) as [Hlt|Hge].
    + constructor; [constructor; assumption|].
      constructor; [unfold by_patient; rewrite patient_one; exact Hlt|].
      eapply Forall_impl; [exact Hr|].
      unfold by_patient. intros x Hx. rewrite patient_one. lia.
    + destruct (Z.eqb_spec p (patient r)) as [Heq|Hne].
      * constructor; [exact Hs|].
        eapply Forall_impl; [exact Hr|].
        unfold by_patient. intros x Hx. rewrite patient_incr. exact Hx.
      * constructor; [exact IH|]. apply bump_above; [lia | exact Hr].
Qed.

Lemma find_bump (p q : Z) (c : Category) (t : list Counts) :
  StronglySorted by_patient t →
  find_patient q (bump p c t)
  = if (q =? p)%Z
    then Some (match find_patient p t with
               | Some r => incr c r
               | None => one p c
               end)
    else find_patient q t.
Proof.
  unfold find_patient.
  induction 1 as [|r t Hs IH Hr]; simpl.
  - rewrite patient_one, (Z.eqb_sym p q). destruct (q =? p)%Z; reflexivity.
  - destruct (Z.ltb_spec p (patient r)) as [Hlt|Hge].
    + simpl. rewrite patient_one, (Z.eqb_sym p q).
      destruct (Z.eqb_spec q p) as [->|Hqp]; [|reflexivity].
      destruct (Z.eqb_spec (patient r) p); [lia|].
      fold (find_patient p t). rewrite find_below; [reflexivity|].
      eapply Forall_impl; [exact Hr|]. unfold by_patient. intros x Hx. lia.
    + destruct (Z.eqb_spec p (patient r)) as [Heq|Hne].
      * simpl. rewrite patient_incr, <- Heq, (Z.eqb_sym p q), Z.eqb_refl.
        destruct (q =? p)%Z; reflexivity.
      * simpl. destruct (Z.eqb_spec q p) as [->|Hqp].
        -- destruct (Z.eqb_spec (patient r) p); [congruence|]. exact IH.
        -- destruct (Z.eqb_spec (patient r) q); [reflexivity|]. exact IH.
Qed.

Lemma find_unique (t : list Counts) (r : Counts) :
  StronglySorted by_patient t → r ∈ t → find_patient (patient r) t = Some r.
Proof.
  unfold find_patient.
  induction 1 as [|x t Hs IH Hx]; intros Hr.
  - apply elem_of_nil in Hr. contradiction.
  - simpl. apply elem_of_cons in Hr as [<- | Hr].
    + rewrite Z.eqb_refl. reflexivity.
    + destruct (Z.eqb_spec (patient x) (patient r)) as [Heq|_]; [|auto].
      rewrite Forall_forall in Hx. specialize (Hx r Hr).
      unfold by_patient in Hx. lia.
Qed.

Lemma calculate_visit_counts_snoc (occ : list Occurrence) (o : Occurrence) :
  calculate_visit_counts (occ ++ [o]) = count_row (calculate_visit_counts occ) o.
Proof. unfold calculate_visit_counts. rewrite fold_left_app. reflexivity. Qed.

Lemma calculate_visit_counts_sorted (occ : list Occurrence) :
  StronglySorted by_patient (calculate_visit_counts occ).
Proof.
  induction occ as [|o occ IH] using rev_ind.
  - constructor.
  - rewrite calculate_visit_counts_snoc. unfold count_row.
    destruct (visit_category (visit_concept_id o)); [apply bump_sorted|];
      exact IH.
Qed.

Lemma visits_snoc (p v : Z) (occ : list Occurrence) (o : Occurrence) :
  visits p v (occ ++ [o])
  = (visits p v occ
     + if (person_id o =? p)%Z && bool_decide (visit_concept_id o = Some v)
       then 1 else 0)%nat.
Proof.
  unfold visits. rewrite List.filter_app, length_app. simpl.
  destruct ((person_id o =? p)%Z && bool_decide (visit_concept_id o = Some v));
    reflexivity.
Qed.

Lemma visit_category_cases (x : option Z) :
  match visit_category x with
  | Some inpatient => x = Some 9201%Z
  | Some outpatient => x = Some 9202%Z
  | None => x ≠ Some 9201%Z ∧ x ≠ Some 9202%Z
  end.
Proof.
  destruct x as [v|]; simpl; [|split; discriminate].
  destruct (Z.eqb_spec v 9201); [congruence|].
  destruct (Z.eqb_spec v 9202); [congruence|].
  split; congruence.
Qed.

Lemma visits_snoc_counted (p v : Z) (occ : list Occurrence) (o : Occurrence) :
  person_id o = p → visit_concept_id o = Some v →
  visits p v (occ ++ [o]) = S (visits p v occ).
Proof.
  intros Hp Hv. rewrite visits_snoc, Hp, Z.eqb_refl.
  rewrite bool_decide_eq_true_2 by exact Hv. simpl. lia.
Qed.

Lemma visits_snoc_other (p v : Z) (occ : list Occurrence) (o : Occurrence) :
  person_id o ≠ p ∨ visit_concept_id o ≠ Some v →
  visits p v (occ ++ [o]) = visits p v occ.
Proof.
  intros H. rewrite visits_snoc.
  destruct H as [H | H].
  - destruct (Z.eqb_spec (person_id o) p); [contradiction|]. simpl. lia.
  - rewrite bool_decide_eq_false_2 by exact H. rewrite andb_false_r. lia.
Qed.

(** The table holds, for each patient with a counted row, the numbers of
    their inpatient and outpatient rows, and no other patient. *)
Lemma find_calculate_visit_counts (occ : list Occurrence) (p : Z) :
  find_patient p (calculate_visit_counts occ)
  = if (visits p 9201 occ + visits p 9202 occ =? 0)%nat then None
    else Some {| patient := p; inpatient_count := visits p 9201 occ;
                 outpatient_count := visits p 9202 occ |}.
Proof.
  induction occ as [|o occ IH] using rev_ind; [reflexivity|].
  rewrite calculate_visit_counts_snoc. unfold count_row.
  pose proof (visit_category_cases (visit_concept_id o)) as Hcat.
  destruct (visit_category (visit_concept_id o)) as [c|].
  - rewrite find_bump by apply calculate_visit_counts_sorted.
    destruct (Z.eqb_spec p (person_id o)) as [->|Hne].
    + rewrite IH. destruct c.
      * rewrite (visits_snoc_counted _ 9201 occ o eq_refl Hcat).
        rewrite (visits_snoc_other _ 9202 occ o)
          by (right; rewrite Hcat; discriminate).
        cbn [Nat.add Nat.eqb].
        destruct (visits (person_id o) 9201 occ
                  + visits (person_id o) 9202 occ =? 0)%nat eqn:E.
        -- apply Nat.eqb_eq in E.
           replace (visits (person_id o) 9201 occ) with 0%nat by lia.
           replace (visits (person_id o) 9202 occ) with 0%nat by lia.
           reflexivity.
        -- reflexivity.
      * rewrite (visits_snoc_counted _ 9202 occ o eq_refl Hcat).
        rewrite (visits_snoc_other _ 9201 occ o)
          by (right; rewrite Hcat; discriminate).
        rewrite Nat.add_succ_r. cbn [Nat.eqb].
        destruct (visits (person_id o) 9201 occ
                  + visits (person_id o) 9202 occ =? 0)%nat eqn:E.
        -- apply Nat.eqb_eq in E.
           replace (visits (person_id o) 9201 occ) with 0%nat by lia.
           replace (visits (person_id o) 9202 occ) with 0%nat by lia.
           reflexivity.
        -- reflexivity.
    + rewrite IH.
      rewrite !(visits_snoc_other p _ occ o) by (left; congruence).
      reflexivity.
  - destruct Hcat as [H1 H2].
    rewrite (visits_snoc_other p 9201 occ o) by (right; exact H1).
    rewrite (visits_snoc_other p 9202 occ o) by (right; exact H2).
    exact IH.
Qed.


End ICDFacts.


(** One inpatient row or two outpatient rows qualify; an outpatient row next
    to an emergency-room row, or an emergency-room row alone, do not. *)
Example cohort_sample :
  ICD.saved_output Sample.occurrences
  = [ {| ICD.patient := 5; ICD.inpatient_count := 1;
         ICD.outpatient_count := 0 |};
      {| ICD.patient := 7; ICD.inpatient_count := 0;
         ICD.outpatient_count := 2 |} ].
Proof. reflexivity. Qed.

(** ** More on the sentence and note classifiers *)

(** X1. The order of the rows of the keyword table does not matter: the same
    roots are found, and the same verdict. *)
Theorem check_sentence_for_keywords_pattern_order (sentence : string)
    (aud_patterns aud_patterns' : Registry) (neg ctx legal : Pattern) :
  aud_patterns ≡ₚ aud_patterns' →
  fst (check_sentence_for_keywords sentence aud_patterns neg ctx legal)
  ≡ₚ fst (check_sentence_for_keywords sentence aud_patterns' neg ctx legal)
  ∧ snd (check_sentence_for_keywords sentence aud_patterns neg ctx legal)
    = snd (check_sentence_for_keywords sentence aud_patterns' neg ctx legal).
Proof.
  intros Hperm. unfold check_sentence_for_keywords.
  destruct (search neg sentence); [split; reflexivity|].
  destruct (search ctx sentence); [split; reflexivity|].
  destruct (search legal sentence); [split; reflexivity|].
  cbn [fst snd].
  assert (H : scan_patterns sentence aud_patterns []
              ≡ₚ scan_patterns sentence aud_patterns' []).
  { apply NoDup_Permutation; try apply scan_patterns_NoDup, NoDup_nil_2.
    intros root. rewrite !scan_patterns_elem. split.
    - intros [Hr | (p & Hp & Hs)]; [auto|]. right. exists p.
      split; [rewrite <- Hperm; exact Hp | exact Hs].
    - intros [Hr | (p & Hp & Hs)]; [auto|]. right. exists p.
      split; [rewrite Hperm; exact Hp | exact Hs]. }
  split; [exact H|]. rewrite (Permutation_length H). reflexivity.
Qed.

Lemma check_sentence_for_keywords_pattern_order_witness :
  fst (check_sentence_for_keywords "alcoholic with heavy drinking daily"
         Sample.registry negation_pattern context_filter_pattern
         legal_admin_filter_pattern)
  ≡ₚ fst (check_sentence_for_keywords "alcoholic with heavy drinking daily"
            (rev Sample.registry) negation_pattern context_filter_pattern
            legal_admin_filter_pattern)
  ∧ snd (check_sentence_for_keywords "alcoholic with heavy drinking daily"
           Sample.registry negation_pattern context_filter_pattern
           legal_admin_filter_pattern)
    = snd (check_sentence_for_keywords "alcoholic with heavy drinking daily"
             (rev Sample.registry) negation_pattern context_filter_pattern
             legal_admin_filter_pattern).
Proof.
  apply (check_sentence_for_keywords_pattern_order
           "alcoholic with heavy drinking daily" Sample.registry
           (rev Sample.registry)).
  symmetry. apply Permutation_rev.
Defined.

Lemma in_registry_roots (aud_patterns : Registry) (p : Pattern)
    (root : string) :
  (p, root) ∈ aud_patterns → root ∈ map snd aud_patterns.
Proof.
  intros H. apply list_elem_of_In, in_map_iff. exists (p, root).
  split; [reflexivity | apply list_elem_of_In, H].
Qed.

(** X4. The roots reported for a note are roots of the keyword table, and the
    count never exceeds the number of its rows. *)
Theorem process_note_text_roots_in_registry (interp : Interp)
    (text : option string) (aud_patterns : Registry)
    (neg ctx legal : Pattern) :
  let out := process_note_text interp text aud_patterns neg ctx legal in
  (∀ root, root ∈ fst (fst out) → ∃ p, (p, root) ∈ aud_patterns)
  ∧ (snd (fst out) ≤ length aud_patterns)%nat.
Proof.
  cbn zeta. destruct text as [text|].
  2: { simpl. split; [|lia]. intros root H. apply elem_of_nil in H.
       contradiction. }
  destruct (process_note_text_shape interp text aud_patterns neg ctx legal)
    as (all & Hout & Hnd & Hall).
  rewrite Hout. cbn [fst snd].
  assert (Hreg : ∀ root, root ∈ all → ∃ p, (p, root) ∈ aud_patterns).
  { intros root Hr. apply Hall in Hr as (s & _ & Hacc & Hr).
    unfold check_sentence_for_keywords in Hr.
    destruct (search neg s); [apply elem_of_nil in Hr; contradiction|].
    destruct (search ctx s); [apply elem_of_nil in Hr; contradiction|].
    destruct (search legal s); [apply elem_of_nil in Hr; contradiction|].
    cbn [fst] in Hr. apply scan_patterns_elem in Hr as [Hr | (p & Hp & _)].
    - apply elem_of_nil in Hr. contradiction.
    - exists p. exact Hp. }
  split.
  - intros root Hr. rewrite (set_iter_perm interp all) in Hr. auto.
  - rewrite <- (length_map snd aud_patterns).
    apply submseteq_length, NoDup_submseteq; [exact Hnd|].
    intros root Hr. destruct (Hreg root Hr) as [p Hp].
    eapply in_registry_roots. exact Hp.
Qed.

Lemma accepted_has_root (aud_patterns : Registry) (neg ctx legal : Pattern)
    (s : string) :
  accepted aud_patterns neg ctx legal s = true →
  ∃ root, root ∈ fst (check_sentence_for_keywords s aud_patterns
                        neg ctx legal).
Proof.
  unfold accepted. cbn zeta. intros H.
  apply andb_true_iff in H as [_ H]. apply negb_true_iff in H.
  apply bool_decide_eq_false in H.
  destruct (fst (check_sentence_for_keywords s aud_patterns neg ctx legal))
    as [|root rest]; [contradiction|].
  exists root. apply elem_of_cons. auto.
Qed.

(** X5. A note has roots exactly when it has matched sentences: the count is
    zero if and only if no sentence is reported. *)
Theorem process_note_text_count_zero (interp : Interp) (text : option string)
    (aud_patterns : Registry) (neg ctx legal : Pattern) :
  let out := process_note_text interp text aud_patterns neg ctx legal in
  snd (fst out) = 0%nat ↔ snd out = [].
Proof.
  cbn zeta. destruct text as [text|]; [|simpl; tauto].
  destruct (process_note_text_shape interp text aud_patterns neg ctx legal)
    as (all & Hout & Hnd & Hall).
  rewrite Hout. cbn [fst snd]. split.
  - intros Hlen. destruct all; [|discriminate].
    destruct (List.filter (accepted aud_patterns neg ctx legal)
                (candidates text)) as [|s rest] eqn:E; [reflexivity|].
    assert (Hs : In s (List.filter (accepted aud_patterns neg ctx legal)
                         (candidates text))) by (rewrite E; left; reflexivity).
    apply filter_In in Hs as [Hs Hacc].
    destruct (accepted_has_root _ _ _ _ _ Hacc) as [root Hroot].
    assert (Hin : root ∈ @nil string).
    { apply Hall. exists s. split; [apply list_elem_of_In, Hs|].
      split; assumption. }
    apply elem_of_nil in Hin. contradiction.
  - intros Hnil. destruct all as [|root rest]; [reflexivity|].
    assert (Hroot : root ∈ root :: rest) by (apply elem_of_cons; auto).
    apply Hall in Hroot as (s & Hs & Hacc & _).
    assert (Hin : In s (List.filter (accepted aud_patterns neg ctx legal)
                          (candidates text))).
    { apply filter_In. split; [apply list_elem_of_In, Hs | exact Hacc]. }
    rewrite Hnil in Hin. contradiction.
Qed.

Lemma unterminated_app (a b : string) :
  unterminated (a +:+ b) = unterminated a && unterminated b.
Proof.
  induction a as [|c a IH]; [reflexivity|].
  change (negb (is_terminator c) && unterminated (a +:+ b)
          = negb (is_terminator c) && unterminated a && unterminated b).
  rewrite IH. apply andb_assoc.
Qed.

Lemma strip_unterminated (s : string) :
  unterminated s = true → unterminated (strip s) = true.
Proof.
  intros H. destruct (strip_trims s) as (l & r & _ & _ & Hs & _).
  rewrite Hs in H. rewrite !unterminated_app in H.
  apply andb_true_iff in H as [_ H]. apply andb_true_iff in H as [H _].
  exact H.
Qed.

Lemma interleave_piece (pieces seps : list string) (p : string) :
  p ∈ pieces → length pieces = S (length seps) →
  ∃ a b, interleave pieces seps = a +:+ p +:+ b.
Proof.
  revert seps. induction pieces as [|q pieces IH]; intros seps Hp Hlen.
  - apply elem_of_nil in Hp. contradiction.
  - destruct seps as [|sep seps].
    + destruct pieces; [|simpl in Hlen; lia].
      apply list_elem_of_singleton in Hp as ->.
      exists EmptyString, EmptyString. cbn [interleave].
      change (q = q +:+ ""). clear. induction q as [|c q IH]; [reflexivity|].
      change (String c q = String c (q +:+ "")). f_equal. exact IH.
    + apply elem_of_cons in Hp as [-> | Hp].
      * exists EmptyString, (sep +:+ interleave pieces seps).
        reflexivity.
      * destruct (IH seps Hp) as (a & b & Hab);
          [simpl in Hlen; lia|].
        exists (q +:+ sep +:+ a), b. cbn [interleave]. rewrite Hab.
        rewrite !append_assoc. reflexivity.
Qed.

(** X6. Every matched sentence is a stretch of the note, without a terminator
    inside and without whitespace at either end. *)
Theorem matched_sentences_are_trimmed_stretches (interp : Interp)
    (text : string) (aud_patterns : Registry) (neg ctx legal : Pattern) :
  let out := process_note_text interp (Some text) aud_patterns neg ctx legal in
  ∀ s, s ∈ snd out →
       (∃ a b, text = a +:+ s +:+ b)
       ∧ unterminated s = true
       ∧ is_space_opt (head s) = false
       ∧ is_space_opt (last_char s) = false.
Proof.
  cbn zeta.
  destruct (process_note_text_shape interp text aud_patterns neg ctx legal)
    as (all & Hout & _ & _).
  rewrite Hout. cbn [snd]. intros s Hs.
  apply list_elem_of_In, filter_In in Hs as [Hs _]. unfold candidates in Hs.
  apply filter_In in Hs as [Hs _].
  apply in_map_iff in Hs as (piece & <- & Hp).
  destruct (re_split_reconstruct text) as (seps & Hlen & _ & Hun & Hint).
  destruct (strip_trims piece) as (l & r & _ & _ & Hpiece & Hh & Hl).
  repeat split; try assumption.
  - destruct (interleave_piece _ seps piece (proj2 (list_elem_of_In _ _) Hp)
                Hlen) as (a & b & Hab).
    exists (a +:+ l), (r +:+ b). rewrite <- Hint, Hab.
    rewrite Hpiece at 1. rewrite !append_assoc. reflexivity.
  - apply strip_unterminated.
    rewrite forallb_forall in Hun. apply Hun, Hp.
Qed.

Lemma matched_sentences_are_trimmed_stretches_witness :
  (∃ a b, "Seen today. Patient reports daily heavy drinking; stable."
          = a +:+ "Patient reports daily heavy drinking" +:+ b)
  ∧ unterminated "Patient reports daily heavy drinking" = true
  ∧ is_space_opt (head "Patient reports daily heavy drinking") = false
  ∧ is_space_opt (last_char "Patient reports daily heavy drinking") = false.
Proof.
  refine (matched_sentences_are_trimmed_stretches
            (slot_order Sample.salt_a)
            "Seen today. Patient reports daily heavy drinking; stable."
            Sample.registry negation_pattern context_filter_pattern
            legal_admin_filter_pattern
            "Patient reports daily heavy drinking" _).
  vm_compute. constructor.
Defined.


(** ** What a word alternation finds *)



Lemma head_append (a b : string) :
  head (a +:+ b) = match a with
                   | EmptyString => head b
                   | String c _ => Some c
                   end.
Proof. destruct a; reflexivity. Qed.





(** ** More on the per-file processor *)

Lemma to_csv_frame (path : string) (rows : list ResultRow) (w : World) :
  parquet_store (snd (to_csv path rows w)) = parquet_store w
  ∧ faults (snd (to_csv path rows w)) = faults w
  ∧ read_log (snd (to_csv path rows w)) = read_log w.
Proof.
  unfold to_csv, interrupted.
  destruct (faults w !! path) as [[k e]|]; [destruct (k <? _)%nat|];
    repeat split.
Qed.

(** X8. The processor leaves the parquet files and every CSV file other than the
    output file of its directory as they are, and reads at most the file it
    was given. *)
Theorem process_single_parquet_footprint (interp : Interp)
    (aud_patterns : Registry) (args : string * nat * nat) (w : World) :
  let r := process_single_parquet interp aud_patterns args w in
  parquet_store (snd r) = parquet_store w
  ∧ faults (snd r) = faults w
  ∧ (read_log (snd r) = read_log w
     ∨ read_log (snd r) = (read_log w ++ [fst (fst args)])%list)
  ∧ ∀ p, p ≠ output_file_of (fst (fst args)) →
         files (snd r) !! p = files w !! p.
Proof.
  cbn zeta. unfold process_single_parquet.
  destruct (exists_ (output_file_of (fst (fst args))) w).
  { cbn [snd]. repeat split; auto. }
  unfold process_body, read_parquet.
  destruct (parquet_store w !! fst (fst args)) as [[e|df]|].
  - cbn [fst snd parquet_store faults read_log files]. repeat split; auto.
  - destruct (classify_rows interp aud_patterns df) as [e|[results n]].
    + cbn [fst snd parquet_store faults read_log files]. repeat split; auto.
    + destruct results as [|row rows].
      * cbn [fst snd parquet_store faults read_log files].
        repeat split; auto.
      * set (w1 := {| parquet_store := parquet_store w; files := files w;
                      faults := faults w;
                      read_log := (read_log w ++ [fst (fst args)])%list |}).
        pose proof (to_csv_frame (output_file_of (fst (fst args)))
                      (row :: rows) w1) as (Hs & Hf & Hl).
        pose proof (fun p Hp =>
                      to_csv_other (output_file_of (fst (fst args))) p
                        (row :: rows) w1 Hp) as Ho.
        destruct (to_csv (output_file_of (fst (fst args))) (row :: rows) w1)
          as [[e|u] w2]; cbn [fst snd] in *; repeat split; auto.
  - cbn [fst snd parquet_store faults read_log files]. repeat split; auto.
Qed.

(** X7. A file whose directory has no output file yet, that loads, has the four
    columns and whose write does not fail: it is read once, every note is
    classified, the summary carries the number of matching notes and the
    number of notes, and the rows of the matching notes are at the output
    path; when no note matches, no file is written. *)
Theorem fresh_file_is_processed (interp : Interp)
    (aud_patterns : Registry) (args : string * nat * nat) (w : World)
    (df : DataFrame) :
  exists_ (output_file_of (fst (fst args))) w = false →
  parquet_store w !! fst (fst args) = Some (Table df) →
  REQUIRED ⊆ columns df →
  faults w !! output_file_of (fst (fst args)) = None →
  let matched := List.filter (has_match interp aud_patterns) (records df) in
  let r := process_single_parquet interp aud_patterns args w in
  fst r = (file_name_of (fst (fst args)), Count (length matched),
           length (records df), None)
  ∧ read_log (snd r) = (read_log w ++ [fst (fst args)])%list
  ∧ files (snd r) !! output_file_of (fst (fst args))
    = match matched with
      | [] => None
      | _ => Some (Sheet (map (row_of interp aud_patterns) matched))
      end.
Proof. apply process_single_parquet_fresh. Qed.

Lemma fresh_file_is_processed_witness :
  let interp := slot_order Sample.salt_a in
  let r := process_single_parquet interp Sample.registry
             (Sample.part0, 0%nat, 1%nat) Sample.one_batch in
  fst r = ("p1", Count 2, 4%nat, None)
  ∧ read_log (snd r) = [Sample.part0]
  ∧ files (snd r) !! output_file_of Sample.part0
    = Some (Sheet [row_of interp Sample.registry Sample.note_a;
                   row_of interp Sample.registry Sample.note_b]).
Proof.
  cbv zeta.
  refine (fresh_file_is_processed (slot_order Sample.salt_a) Sample.registry
            (Sample.part0, 0%nat, 1%nat) Sample.one_batch
            (Sample.frame [Sample.note_a; Sample.note_c; Sample.note_b;
                           Sample.note_d]) _ _ _ _).
  - vm_compute. reflexivity.
  - vm_compute. reflexivity.
  - unfold REQUIRED, Sample.frame, Sample.cols. simpl. set_solver.
  - vm_compute. reflexivity.
Defined.

(** X9. A file without a matching note leaves no trace but the read: its
    directory has still no output file, and the next run reads it again. *)
Theorem file_without_match_is_read_again (interp : Interp)
    (aud_patterns : Registry) (args : string * nat * nat) (w : World)
    (df : DataFrame) :
  exists_ (output_file_of (fst (fst args))) w = false →
  parquet_store w !! fst (fst args) = Some (Table df) →
  REQUIRED ⊆ columns df →
  List.filter (has_match interp aud_patterns) (records df) = [] →
  let r1 := process_single_parquet interp aud_patterns args w in
  let r2 := process_single_parquet interp aud_patterns args (snd r1) in
  fst r1 = (file_name_of (fst (fst args)), Count 0, length (records df), None)
  ∧ files (snd r1) = files w
  ∧ fst r2 = fst r1
  ∧ read_log (snd r2)
    = (read_log w ++ [fst (fst args); fst (fst args)])%list.
Proof.
  intros Hex Hstore Hcols Hnone. cbn zeta.
  assert (H1 : process_single_parquet interp aud_patterns args w
               = ((file_name_of (fst (fst args)), Count 0,
                   length (records df), None),
                  {| parquet_store := parquet_store w; files := files w;
                     faults := faults w;
                     read_log := (read_log w ++ [fst (fst args)])%list |})).
  { unfold process_single_parquet. rewrite Hex.
    unfold process_body, read_parquet. rewrite Hstore.
    rewrite (classify_rows_present interp aud_patterns df Hcols), Hnone.
    reflexivity. }
  rewrite H1. cbn [fst snd files]. split; [reflexivity|].
  split; [reflexivity|].
  unfold process_single_parquet. unfold exists_ in *. cbn [files].
  rewrite Hex. unfold process_body, read_parquet.
  cbn [parquet_store files faults read_log]. rewrite Hstore.
  rewrite (classify_rows_present interp aud_patterns df Hcols), Hnone.
  cbn [fst snd read_log map length]. split; [reflexivity|].
  rewrite <- app_assoc. reflexivity.
Qed.

Lemma file_without_match_is_read_again_witness :
  let interp := slot_order Sample.salt_a in
  let args := (Sample.quiet0, 0%nat, 1%nat) in
  let r1 := process_single_parquet interp Sample.registry args
              Sample.quiet_batch in
  let r2 := process_single_parquet interp Sample.registry args (snd r1) in
  fst r1 = (file_name_of Sample.quiet0, Count 0, 2%nat, None)
  ∧ files (snd r1) = files Sample.quiet_batch
  ∧ fst r2 = fst r1
  ∧ read_log (snd r2) = [Sample.quiet0; Sample.quiet0].
Proof.
  cbv zeta.
  refine (file_without_match_is_read_again (slot_order Sample.salt_a)
            Sample.registry (Sample.quiet0, 0%nat, 1%nat) Sample.quiet_batch
            (Sample.frame [Sample.note_c; Sample.note_d]) _ _ _ _).
  - vm_compute. reflexivity.
  - vm_compute. reflexivity.
  - unfold REQUIRED, Sample.frame, Sample.cols. simpl. set_solver.
  - vm_compute. reflexivity.
Defined.

Lemma interrupted_write_is_partial_witness :
  ∃ c, files (interrupted 2 (to_csv_ops "results/intermediate_keywords/p1_results.csv"
                              [row_of (slot_order Sample.salt_a)
                                 Sample.registry Sample.note_a])
                Sample.one_batch)
       !! "results/intermediate_keywords/p1_results.csv" = Some c
       ∧ c ≠ Sheet [row_of (slot_order Sample.salt_a) Sample.registry
                      Sample.note_a].
Proof.
  refine (interrupted_write_is_partial
            "results/intermediate_keywords/p1_results.csv"
            [row_of (slot_order Sample.salt_a) Sample.registry Sample.note_a]
            Sample.one_batch 2 _ _).
  - lia.
  - simpl. lia.
Defined.

Lemma failure_before_the_write_leaves_files_witness :
  let r := process_single_parquet (slot_order Sample.salt_a) Sample.registry
             (Sample.part0, 0%nat, 2%nat) Sample.one_without_text_column in
  (∃ e, fst r = (file_name_of Sample.part0, Count 0, 0%nat,
                 Some ("Error: " +:+ e)))
  ∧ files (snd r) = files Sample.one_without_text_column.
Proof.
  cbv zeta.
  refine (failure_before_the_write_leaves_files (slot_order Sample.salt_a)
            Sample.registry (Sample.part0, 0%nat, 2%nat)
            Sample.one_without_text_column _ _).
  - vm_compute. reflexivity.
  - vm_compute. exists "'REPORT_TEXT'". reflexivity.
Defined.

(** ** More on the driver *)

Lemma fold_drive_step_skips (interp : Interp) (aud_patterns : Registry)
    (args : list (string * nat * nat)) (st : RunState) (w : World) :
  Forall (fun a => exists_ (output_file_of (fst (fst a))) w = true) args →
  fold_left (drive_step interp aud_patterns) args (st, w)
  = ({| processed_count := processed_count st;
        skipped_count := skipped_count st + length args;
        total_matches := total_matches st;
        total_notes_processed := total_notes_processed st;
        errors := errors st |}, w).
Proof.
  intros Hall. revert st. induction Hall as [|a args Ha _ IH]; intros st.
  - destruct st. simpl. rewrite Nat.add_0_r. reflexivity.
  - cbn [fold_left]. unfold drive_step at 2. cbn [fst snd].
    unfold process_single_parquet. rewrite Ha. cbn [fst snd].
    rewrite IH. unfold tally.
    cbn [fst snd truthy skipped_count processed_count total_matches
           total_notes_processed errors length].
    f_equal. f_equal. lia.
Qed.

(** X16. When the output file of every file's directory is there, the driver
    counts every file as skipped, reads nothing and changes nothing. *)
Theorem drive_skips_completed (interp : Interp) (aud_patterns : Registry)
    (args : list (string * nat * nat)) (w : World) :
  Forall (fun a => exists_ (output_file_of (fst (fst a))) w = true) args →
  drive interp aud_patterns args w
  = ({| processed_count := 0; skipped_count := length args;
        total_matches := 0; total_notes_processed := 0; errors := [] |}, w).
Proof.
  intros Hall. unfold drive.
  rewrite (fold_drive_step_skips interp aud_patterns args start w Hall).
  reflexivity.
Qed.

Lemma drive_skips_completed_witness :
  let done :=
    snd (drive (slot_order Sample.salt_a) Sample.registry
           [(Sample.part0, 0%nat, 1%nat)] Sample.one_batch) in
  drive (slot_order Sample.salt_a) Sample.registry
    [(Sample.part0, 0%nat, 1%nat)] done
  = ({| processed_count := 0; skipped_count := 1; total_matches := 0;
        total_notes_processed := 0; errors := [] |}, done).
Proof.
  cbv zeta.
  refine (drive_skips_completed (slot_order Sample.salt_a) Sample.registry
            [(Sample.part0, 0%nat, 1%nat)] _ _).
  constructor; [vm_compute; reflexivity | constructor].
Defined.

(** ** Paths *)


Lemma length_append (a b : string) :
  String.length (a +:+ b) = (String.length a + String.length b)%nat.
Proof.
  induction a as [|c a IH]; [reflexivity|].
  change (S (String.length (a +:+ b))
          = S (String.length a + String.length b)).
  f_equal. exact IH.
Qed.

Lemma has_slash_app (a b : string) :
  Path.has_slash (a +:+ b) = Path.has_slash a || Path.has_slash b.
Proof.
  induction a as [|c a IH]; [reflexivity|].
  change (Ascii.eqb c Path.slash || Path.has_slash (a +:+ b)
          = Ascii.eqb c Path.slash || Path.has_slash a || Path.has_slash b).
  rewrite IH. apply orb_assoc.
Qed.

Lemma split_last_none (p : string) :
  Path.split_last p = None ↔ Path.has_slash p = false.
Proof.
  induction p as [|c p IH]; [simpl; tauto|]. simpl.
  destruct (Path.split_last p) as [[d b]|].
  - split; [discriminate|]. intros H.
    apply orb_false_iff in H as [_ H]. apply IH in H. discriminate.
  - destruct (Ascii.eqb c Path.slash); simpl.
    + split; discriminate.
    + split; [intros _; apply IH; reflexivity | reflexivity].
Qed.

Lemma split_last_join (d f : string) :
  Path.has_slash f = false →
  Path.split_last (d +:+ "/" +:+ f) = Some (d, f).
Proof.
  intros Hf. induction d as [|c d IH].
  - change (Path.split_last (String Path.slash f) = Some (EmptyString, f)).
    simpl. rewrite (proj2 (split_last_none f) Hf). reflexivity.
  - change (Path.split_last (String c (d +:+ "/" +:+ f))
            = Some (String c d, f)).
    simpl. rewrite IH. reflexivity.
Qed.

Lemma split_last_spec (p d f : string) :
  Path.split_last p = Some (d, f) →
  p = d +:+ "/" +:+ f ∧ Path.has_slash f = false.
Proof.
  revert d f. induction p as [|c p IH]; intros d f H; [discriminate|].
  simpl in H. destruct (Path.split_last p) as [[d0 b]|] eqn:E.
  - inversion H; subst. destruct (IH d0 f eq_refl) as [Hp Hf].
    split; [|exact Hf].
    change (String c p = String c (d0 +:+ "/" +:+ f)). f_equal. exact Hp.
  - destruct (Ascii.eqb c Path.slash) eqn:Hc; [|discriminate].
    inversion H; subst. apply Ascii.eqb_eq in Hc. subst c.
    split; [reflexivity | apply split_last_none, E].
Qed.

Lemma prefix_app (a b : string) : String.prefix a (a +:+ b) = true.
Proof.
  induction a as [|c a IH]; [destruct b; reflexivity|].
  change (String.prefix (String c a) (String c (a +:+ b)) = true).
  simpl. destruct (ascii_dec c c); [exact IH | contradiction].
Qed.

Lemma drop_app (a b : string) : Path.drop (String.length a) (a +:+ b) = b.
Proof. induction a as [|c a IH]; [reflexivity | exact IH]. Qed.

Lemma prefix_drop (a s : string) :
  String.prefix a s = true → s = a +:+ Path.drop (String.length a) s.
Proof.
  revert s. induction a as [|c a IH]; intros s H; [reflexivity|].
  destruct s as [|b s]; [discriminate|]. simpl in H.
  destruct (ascii_dec c b) as [->|]; [|discriminate].
  change (String b s = String b (a +:+ Path.drop (String.length a) s)).
  f_equal. apply IH, H.
Qed.

Lemma ends_with_app (d suf : string) : Path.ends_with suf (d +:+ suf) = true.
Proof.
  unfold Path.ends_with. rewrite length_append.
  replace (String.length d + String.length suf - String.length suf)%nat
    with (String.length d) by lia.
  rewrite drop_app, String.eqb_refl, andb_true_r.
  apply Nat.leb_le. lia.
Qed.

Lemma rstrip_slashes_free (d : string) :
  Path.has_slash d = false → Path.rstrip_slashes d = d.
Proof.
  induction d as [|c d IH]; [reflexivity|]. simpl. intros H.
  apply orb_false_iff in H as [Hc Hd]. rewrite (IH Hd), Hc.
  destruct d; reflexivity.
Qed.

Lemma rstrip_slashes_app (x d : string) :
  d ≠ "" → Path.has_slash d = false →
  Path.rstrip_slashes (x +:+ d) = x +:+ d.
Proof.
  intros Hne Hd. induction x as [|c x IH].
  - apply rstrip_slashes_free, Hd.
  - change (Path.rstrip_slashes (String c (x +:+ d)) = String c (x +:+ d)).
    simpl. rewrite IH. destruct (x +:+ d) eqn:E; [|reflexivity].
    destruct x; [|discriminate]. simpl in E. contradiction.
Qed.

Lemma file_name_of_in_directory (dir name h : string) :
  name ≠ "" → Path.has_slash name = false → Path.has_slash h = false →
  file_name_of (dir +:+ "/" +:+ name +:+ "/" +:+ h) = name.
Proof.
  intros Hne Hname Hh. unfold file_name_of, Path.dirname.
  replace (dir +:+ "/" +:+ name +:+ "/" +:+ h)
    with ((dir +:+ "/" +:+ name) +:+ "/" +:+ h)
    by (rewrite !append_assoc; reflexivity).
  rewrite (split_last_join _ h Hh).
  assert (Hr : Path.rstrip_slashes (dir +:+ "/" +:+ name)
               = dir +:+ "/" +:+ name).
  { rewrite <- (append_assoc dir "/" name).
    apply rstrip_slashes_app; assumption. }
  destruct (Path.all_slashes (dir +:+ "/" +:+ name)) eqn:Hall.
  - exfalso. clear - Hne Hname Hall.
    induction dir as [|c dir IH].
    + change (Path.all_slashes (String Path.slash name) = true) in Hall.
      simpl in Hall. destruct name as [|c name]; [contradiction|].
      simpl in Hall, Hname. apply orb_false_iff in Hname as [Hc _].
      rewrite Hc in Hall. discriminate.
    + change (Path.all_slashes (String c (dir +:+ "/" +:+ name)) = true)
        in Hall.
      simpl in Hall. apply andb_true_iff in Hall as [_ Hall]. auto.
  - rewrite Hr. unfold Path.basename.
    rewrite (split_last_join dir name Hname). reflexivity.
Qed.

(** X12. What the processor calls [file_name] is the name of the directory of the
    file, and two files of one directory have the same output file. *)
Theorem output_file_depends_on_directory_only (dir name f g : string) :
  name ≠ "" → Path.has_slash name = false →
  Path.has_slash f = false → Path.has_slash g = false →
  file_name_of (dir +:+ "/" +:+ name +:+ "/" +:+ f) = name
  ∧ output_file_of (dir +:+ "/" +:+ name +:+ "/" +:+ f)
    = output_file_of (dir +:+ "/" +:+ name +:+ "/" +:+ g).
Proof.
  intros Hne Hname Hf Hg.
  split; [apply file_name_of_in_directory; assumption|].
  unfold output_file_of.
  rewrite !file_name_of_in_directory by assumption. reflexivity.
Qed.

Lemma output_file_depends_on_directory_only_witness :
  file_name_of ("/data/notes" +:+ "/" +:+ "p1" +:+ "/" +:+ "part-0.parquet")
  = "p1"
  ∧ output_file_of
      ("/data/notes" +:+ "/" +:+ "p1" +:+ "/" +:+ "part-0.parquet")
    = output_file_of
        ("/data/notes" +:+ "/" +:+ "p1" +:+ "/" +:+ "part-1.parquet").
Proof.
  apply (output_file_depends_on_directory_only "/data/notes" "p1"
           "part-0.parquet" "part-1.parquet");
    [discriminate | reflexivity | reflexivity | reflexivity].
Defined.

(** ** From the driver's files to the merge *)

(** X13. Once a file of a directory has left rows at the output path, any other
    file of that directory is skipped unread, whatever notes it holds. *)
Theorem later_file_of_directory_is_skipped (interp : Interp)
    (aud_patterns : Registry) (dir name f g : string) (i j n : nat)
    (w : World) (df : DataFrame) :
  name ≠ "" → Path.has_slash name = false →
  Path.has_slash f = false → Path.has_slash g = false →
  exists_ (output_file_of (dir +:+ "/" +:+ name +:+ "/" +:+ f)) w = false →
  parquet_store w !! (dir +:+ "/" +:+ name +:+ "/" +:+ f) = Some (Table df) →
  REQUIRED ⊆ columns df →
  faults w !! output_file_of (dir +:+ "/" +:+ name +:+ "/" +:+ f) = None →
  List.filter (has_match interp aud_patterns) (records df) ≠ [] →
  let w1 := snd (process_single_parquet interp aud_patterns
                   (dir +:+ "/" +:+ name +:+ "/" +:+ f, i, n) w) in
  process_single_parquet interp aud_patterns
    (dir +:+ "/" +:+ name +:+ "/" +:+ g, j, n) w1
  = ((name, SKIPPED, 0%nat, None), w1).
Proof.
  intros Hne Hname Hf Hg Hex Hstore Hcols Hfault Hmatch. cbn zeta.
  pose proof (process_single_parquet_fresh interp aud_patterns
                (dir +:+ "/" +:+ name +:+ "/" +:+ f, i, n) w df
                Hex Hstore Hcols Hfault) as H.
  cbn zeta in H. destruct H as (_ & _ & Hfile). cbn [fst] in Hfile.
  destruct (List.filter (has_match interp aud_patterns) (records df))
    as [|m ms]; [contradiction|].
  unfold process_single_parquet at 1. cbn [fst].
  assert (Hout : output_file_of (dir +:+ "/" +:+ name +:+ "/" +:+ g)
                 = output_file_of (dir +:+ "/" +:+ name +:+ "/" +:+ f)).
  { unfold output_file_of.
    rewrite !file_name_of_in_directory by assumption. reflexivity. }
  rewrite Hout. unfold exists_ at 1. rewrite Hfile.
  rewrite bool_decide_eq_true_2 by eauto.
  rewrite file_name_of_in_directory by assumption. reflexivity.
Qed.

Lemma later_file_of_directory_is_skipped_witness :
  let interp := slot_order Sample.salt_a in
  let dir := "/media/volume/GLP/RDRP_6263_AUD/notes" in
  let w1 := snd (process_single_parquet interp Sample.registry
                   (dir +:+ "/" +:+ "p1" +:+ "/" +:+ "part-0.parquet",
                    0%nat, 2%nat) Sample.two_batches) in
  process_single_parquet interp Sample.registry
    (dir +:+ "/" +:+ "p1" +:+ "/" +:+ "part-1.parquet", 1%nat, 2%nat) w1
  = (("p1", SKIPPED, 0%nat, None), w1).
Proof.
  cbv zeta.
  refine (later_file_of_directory_is_skipped (slot_order Sample.salt_a)
            Sample.registry "/media/volume/GLP/RDRP_6263_AUD/notes" "p1"
            "part-0.parquet" "part-1.parquet" 0 1 2 Sample.two_batches
            (Sample.frame [Sample.note_a]) _ _ _ _ _ _ _ _ _).
  - discriminate.
  - reflexivity.
  - reflexivity.
  - reflexivity.
  - vm_compute. reflexivity.
  - vm_compute. reflexivity.
  - unfold REQUIRED, Sample.frame, Sample.cols. simpl. set_solver.
  - vm_compute. reflexivity.
  - vm_compute. discriminate.
Defined.

Lemma join_intermediate (c : ascii) (b : string) :
  Ascii.eqb c Path.slash = false →
  Path.join intermediate_path (String c b)
  = intermediate_path +:+ String c b.
Proof. intros H. unfold Path.join. rewrite H. reflexivity. Qed.

Lemma prefix_nil (s : string) : String.prefix "" s = true.
Proof. destruct s; reflexivity. Qed.

Lemma wild_any (d : string) :
  Path.wild "" "" d = true →
  Path.has_slash d = false ∧ Path.hidden d = false.
Proof.
  unfold Path.wild. intros H.
  apply andb_true_iff in H as [H _]. apply andb_true_iff in H as [H _].
  apply andb_true_iff in H as [H1 H2].
  apply negb_true_iff in H1. apply negb_true_iff in H2. auto.
Qed.

(** X14. Every file the driver finds lies in a directory [name] under the notes
    directory; its output file is [name_results.csv] in the intermediate
    directory, which is a file the merge looks for. *)
Theorem driver_files_feed_the_merge (p : string) :
  Path.glob_subdir_file notes_dir "part-" ".parquet" p = true →
  ∃ name f,
    p = notes_dir +:+ name +:+ "/" +:+ f
    ∧ file_name_of p = name
    ∧ output_file_of p = intermediate_path +:+ name +:+ "_results.csv"
    ∧ Path.glob_file intermediate_path "_results.csv" (output_file_of p)
      = true.
Proof.
  unfold Path.glob_subdir_file. intros H.
  apply andb_true_iff in H as [Hpre H].
  destruct (Path.split_last (Path.drop (String.length notes_dir) p))
    as [[name f]|] eqn:Hsplit; [|discriminate].
  apply andb_true_iff in H as [H Hf]. apply andb_true_iff in H as [Hne Hd].
  apply negb_true_iff, String.eqb_neq in Hne.
  apply wild_any in Hd as [Hslash Hhidden].
  apply split_last_spec in Hsplit as [Hrest Hfslash].
  apply prefix_drop in Hpre. rewrite Hrest in Hpre.
  assert (Hname : file_name_of p = name).
  { rewrite Hpre.
    change (notes_dir +:+ name +:+ "/" +:+ f)
      with ("/media/volume/GLP/RDRP_6263_AUD/notes" +:+ "/" +:+ name
            +:+ "/" +:+ f).
    apply file_name_of_in_directory; assumption. }
  assert (Hout : output_file_of p
                 = intermediate_path +:+ name +:+ "_results.csv").
  { unfold output_file_of. rewrite Hname.
    destruct name as [|c name]; [contradiction|].
    simpl in Hslash. apply orb_false_iff in Hslash as [Hc _].
    apply (join_intermediate c (name +:+ "_results.csv") Hc). }
  exists name, f. split; [exact Hpre|]. split; [exact Hname|].
  split; [exact Hout|]. rewrite Hout. unfold Path.glob_file.
  rewrite prefix_app, drop_app.
  change (Path.wild "" "_results.csv" (name +:+ "_results.csv"))
    with (negb (Path.has_slash (name +:+ "_results.csv"))
          && negb (Path.hidden (name +:+ "_results.csv"))
          && String.prefix "" (name +:+ "_results.csv")
          && Path.ends_with "_results.csv" (name +:+ "_results.csv")).
  rewrite has_slash_app, Hslash, ends_with_app, prefix_nil.
  destruct name as [|c name]; [contradiction|].
  simpl in Hhidden.
  change (Path.hidden (String c name +:+ "_results.csv"))
    with (Ascii.eqb c Path.dot).
  rewrite Hhidden. reflexivity.
Qed.

Lemma driver_files_feed_the_merge_witness :
  ∃ name f,
    Sample.part0 = notes_dir +:+ name +:+ "/" +:+ f
    ∧ file_name_of Sample.part0 = name
    ∧ output_file_of Sample.part0
      = intermediate_path +:+ name +:+ "_results.csv"
    ∧ Path.glob_file intermediate_path "_results.csv"
        (output_file_of Sample.part0) = true.
Proof.
  refine (driver_files_feed_the_merge Sample.part0 _).
  vm_compute. reflexivity.
Defined.

(** ** More on the merge *)

Lemma all_intermediate_files_elem (w : World) (p : string) :
  p ∈ all_intermediate_files w
  ↔ Path.glob_file intermediate_path "_results.csv" p = true
    ∧ is_Some (files w !! p).
Proof.
  unfold all_intermediate_files.
  rewrite list_elem_of_filter, list_elem_of_fmap. split.
  - intros (Hg & [q c] & -> & Hq). apply elem_of_map_to_list in Hq.
    split; [exact Hg | eauto].
  - intros (Hg & c & Hc). split; [exact Hg|].
    exists (p, c). split; [reflexivity | apply elem_of_map_to_list, Hc].
Qed.

Lemma load_all_elem (fs : list string) (w : World) (rows : list ResultRow) :
  rows ∈ load_all fs w ↔ ∃ p, p ∈ fs ∧ files w !! p = Some (Sheet rows).
Proof.
  unfold load_all. rewrite list_elem_of_omap. split.
  - intros (p & Hp & Hr). exists p. split; [exact Hp|].
    unfold read_csv in Hr.
    destruct (files w !! p) as [[|rs]|]; try discriminate. congruence.
  - intros (p & Hp & Hf). exists p. split; [exact Hp|].
    unfold read_csv. rewrite Hf. reflexivity.
Qed.

(** X17. When at least one intermediate file loads and the final write does not
    fail, the final table is written and holds exactly the rows of the
    intermediate files that load, as many as they hold together; a file that
    does not load (an empty one) is left out. *)
Theorem merge_collects_every_readable_artifact (w : World) :
  faults w !! final_output = None →
  load_all (all_intermediate_files w) w ≠ [] →
  let loaded := load_all (all_intermediate_files w) w in
  let r := merge_results w in
  fst r = Merged (concat loaded)
  ∧ files (snd r) !! final_output = Some (Sheet (concat loaded))
  ∧ length (concat loaded) = list_sum (map length loaded)
  ∧ ∀ row, row ∈ concat loaded
      ↔ ∃ p rows, Path.glob_file intermediate_path "_results.csv" p = true
                  ∧ files w !! p = Some (Sheet rows) ∧ row ∈ rows.
Proof.
  intros Hfault Hloaded. cbn zeta. unfold merge_results.
  destruct (all_intermediate_files w) as [|f fs] eqn:Hfiles;
    [contradiction Hloaded; reflexivity|].
  destruct (load_all (f :: fs) w) as [|d ds] eqn:Hload; [contradiction|].
  unfold to_csv. rewrite Hfault. cbn [fst snd files with_files].
  split; [reflexivity|]. split; [apply to_csv_ops_complete|].
  split; [apply length_concat|].
  intros row. rewrite list_elem_of_In, in_concat. split.
  - intros (rows & Hrows & Hrow).
    apply list_elem_of_In in Hrows. rewrite <- Hload in Hrows.
    apply load_all_elem in Hrows as (p & Hp & Hf).
    rewrite <- Hfiles in Hp. apply all_intermediate_files_elem in Hp as [Hg _].
    exists p, rows. split; [exact Hg|]. split; [exact Hf|].
    apply list_elem_of_In, Hrow.
  - intros (p & rows & Hg & Hf & Hrow). exists rows.
    split; [|apply list_elem_of_In, Hrow].
    apply list_elem_of_In. rewrite <- Hload. apply load_all_elem.
    exists p. split; [|exact Hf].
    rewrite <- Hfiles. apply all_intermediate_files_elem. split; eauto.
Qed.

Lemma merge_collects_every_readable_artifact_witness :
  let w := snd (run_driver (slot_order Sample.salt_a) Sample.registry
                  Sample.one_unreadable) in
  let loaded := load_all (all_intermediate_files w) w in
  let r := merge_results w in
  fst r = Merged (concat loaded)
  ∧ files (snd r) !! final_output = Some (Sheet (concat loaded))
  ∧ length (concat loaded) = list_sum (map length loaded)
  ∧ ∀ row, row ∈ concat loaded
      ↔ ∃ p rows, Path.glob_file intermediate_path "_results.csv" p = true
                  ∧ files w !! p = Some (Sheet rows) ∧ row ∈ rows.
Proof.
  cbv zeta.
  refine (merge_collects_every_readable_artifact
            (snd (run_driver (slot_order Sample.salt_a) Sample.registry
                    Sample.one_unreadable)) _ _).
  - vm_compute. reflexivity.
  - vm_compute. discriminate.
Defined.

Lemma merge_keeps_intermediate_files_witness :
  let w := snd (run_driver (slot_order Sample.salt_a) Sample.registry
                  Sample.one_batch) in
  files (snd (merge_results w)) !! output_file_of Sample.part0
  = files w !! output_file_of Sample.part0.
Proof.
  cbv zeta.
  refine (merge_keeps_intermediate_files
            (snd (run_driver (slot_order Sample.salt_a) Sample.registry
                    Sample.one_batch))
            (output_file_of Sample.part0) _).
  vm_compute. reflexivity.
Defined.

(** ** More on the visit counts *)

Module CountsFacts.
Import ICD ICDFacts.

Lemma sorted_tail_below (r : Counts) (t : list Counts) :
  Forall (by_patient r) t → find_patient (patient r) t = None.
Proof.
  intros H. apply find_below. eapply Forall_impl; [exact H|].
  unfold by_patient. intros x Hx. exact Hx.
Qed.

Lemma find_head (r : Counts) (t : list Counts) :
  find_patient (patient r) (r :: t) = Some r.
Proof. unfold find_patient. simpl. rewrite Z.eqb_refl. reflexivity. Qed.

Lemma find_tail (p : Z) (r : Counts) (t : list Counts) :
  p ≠ patient r → find_patient p (r :: t) = find_patient p t.
Proof.
  intros H. unfold find_patient. simpl.
  destruct (Z.eqb_spec (patient r) p); [congruence | reflexivity].
Qed.

Lemma find_patient_some (p : Z) (t : list Counts) (r : Counts) :
  find_patient p t = Some r → r ∈ t ∧ patient r = p.
Proof.
  unfold find_patient. intros H. apply find_some in H as [Hin Hp].
  split; [apply list_elem_of_In, Hin | apply Z.eqb_eq, Hp].
Qed.

(** Two tables in the order of [groupby] that answer alike for every
    patient are the same table. *)
Lemma sorted_tables_equal (t t' : list Counts) :
  StronglySorted by_patient t → StronglySorted by_patient t' →
  (∀ p, find_patient p t = find_patient p t') → t = t'.
Proof.
  intros Hs. revert t'. induction Hs as [|r t Hs IH Hr]; intros t' Hs' Hfind.
  - destruct t' as [|r' t']; [reflexivity|].
    specialize (Hfind (patient r')). rewrite find_head in Hfind. discriminate.
  - destruct Hs' as [|r' t' Hs' Hr'].
    + specialize (Hfind (patient r)). rewrite find_head in Hfind.
      discriminate.
    + assert (Heq : r = r').
      { pose proof (Hfind (patient r)) as H1. rewrite find_head in H1.
        pose proof (Hfind (patient r')) as H2. rewrite find_head in H2.
        destruct (Z.eq_dec (patient r) (patient r')) as [E|E].
        - rewrite E, find_head in H1. congruence.
        - rewrite find_tail in H1 by congruence.
          rewrite find_tail in H2 by congruence.
          symmetry in H1. apply find_patient_some in H1 as [H1 _].
          apply find_patient_some in H2 as [H2 _].
          rewrite Forall_forall in Hr, Hr'.
          specialize (Hr _ H2). specialize (Hr' _ H1).
          unfold by_patient in Hr, Hr'. lia. }
      subst r'. f_equal. apply IH; [exact Hs'|].
      intros p. destruct (Z.eq_dec p (patient r)) as [->|Hp].
      * rewrite !sorted_tail_below by assumption. reflexivity.
      * specialize (Hfind p). rewrite !find_tail in Hfind by exact Hp.
        exact Hfind.
Qed.

Lemma visits_perm (p v : Z) (occ occ' : list Occurrence) :
  occ ≡ₚ occ' → visits p v occ = visits p v occ'.
Proof.
  intros H. unfold visits. apply Permutation_length.
  induction H as [|x l l' _ IH|x y l|l l' l'' _ IH1 _ IH2]; simpl.
  - constructor.
  - destruct (_ && _); [constructor|]; exact IH.
  - destruct (_ && _), (_ && _); try reflexivity. constructor.
  - etransitivity; eassumption.
Qed.


End CountsFacts.

(** X19. The table of counts has one row for each patient with an inpatient or an
    outpatient row and none for the others; each row carries the numbers of
    the patient's inpatient and outpatient rows; the rows come by increasing
    [person_id]. *)
Theorem visit_counts_table (aud_occurrence : list ICD.Occurrence) :
  StronglySorted ICD.by_patient (ICD.calculate_visit_counts aud_occurrence)
  ∧ ∀ r, r ∈ ICD.calculate_visit_counts aud_occurrence
      ↔ (1 ≤ ICD.visits (ICD.patient r) 9201 aud_occurrence
             + ICD.visits (ICD.patient r) 9202 aud_occurrence)%nat
        ∧ ICD.inpatient_count r
          = ICD.visits (ICD.patient r) 9201 aud_occurrence
        ∧ ICD.outpatient_count r
          = ICD.visits (ICD.patient r) 9202 aud_occurrence.
Proof.
  pose proof (ICDFacts.calculate_visit_counts_sorted aud_occurrence) as Hs.
  split; [exact Hs|]. intros r. split.
  - intros Hr. apply (ICDFacts.find_unique _ _ Hs) in Hr.
    rewrite ICDFacts.find_calculate_visit_counts in Hr.
    destruct (_ =? 0)%nat eqn:E; [discriminate|].
    apply Nat.eqb_neq in E. destruct r as [p i o].
    cbn [ICD.patient ICD.inpatient_count ICD.outpatient_count] in *.
    injection Hr as Hi Ho. split; [exact (proj1 (Nat.neq_0_lt_0 _) E)|].
    split; symmetry; assumption.
  - intros (Hpos & Hin & Hout).
    pose proof (ICDFacts.find_calculate_visit_counts aud_occurrence
                  (ICD.patient r)) as Hf.
    destruct (_ =? 0)%nat eqn:E; [apply Nat.eqb_eq in E; lia|].
    apply CountsFacts.find_patient_some in Hf as [Hf _].
    destruct r as [p i o].
    cbn [ICD.patient ICD.inpatient_count ICD.outpatient_count] in *.
    subst i o. exact Hf.
Qed.

(** X20. The saved table does not depend on the order of the rows read. *)
Theorem saved_output_ignores_row_order
    (aud_occurrence aud_occurrence' : list ICD.Occurrence) :
  aud_occurrence ≡ₚ aud_occurrence' →
  ICD.saved_output aud_occurrence = ICD.saved_output aud_occurrence'.
Proof.
  intros Hperm. unfold ICD.saved_output. f_equal.
  apply CountsFacts.sorted_tables_equal;
    try apply ICDFacts.calculate_visit_counts_sorted.
  intros p. rewrite !ICDFacts.find_calculate_visit_counts.
  rewrite !(CountsFacts.visits_perm p _ _ _ Hperm). reflexivity.
Qed.

Lemma saved_output_ignores_row_order_witness :
  ICD.saved_output Sample.occurrences
  = ICD.saved_output (rev Sample.occurrences).
Proof.
  apply (saved_output_ignores_row_order Sample.occurrences
           (rev Sample.occurrences)).
  apply Permutation_rev.
Defined.

(** ** The query on the condition table *)

Module QueryFacts.
Import ICDQuery.

Lemma split_carets_step (c d : ascii) (s : string) :
  split_carets (String c (String d s))
  = if Ascii.eqb c caret && Ascii.eqb d caret
    then EmptyString :: split_carets s
    else match split_carets (String d s) with
         | p :: ps => String c p :: ps
         | [] => [String c EmptyString]
         end.
Proof. reflexivity. Qed.








Lemma split_carets_two (s p q : string) (rest : list string) :
  split_carets s = p :: q :: rest → ∃ b, s = p +:+ "^^" +:+ b.
Proof.
  revert p q rest. induction s as [|c s IH]; intros p q rest H.
  { simpl in H. discriminate. }
  destruct s as [|d s].
  { simpl in H. discriminate. }
  rewrite split_carets_step in H.
  destruct (Ascii.eqb c caret && Ascii.eqb d caret) eqn:E.
  - apply andb_true_iff in E as [Hc Hd].
    apply Ascii.eqb_eq in Hc, Hd. subst. inversion H; subst.
    exists s. reflexivity.
  - destruct (split_carets (String d s)) as [|p' ps] eqn:E'.
    { discriminate. }
    inversion H; subst. destruct (IH p' q rest eq_refl) as [b Hb].
    exists b. rewrite Hb. reflexivity.
Qed.





End QueryFacts.



(** X22. A row whose source value is missing, or holds no [^^], is never
    selected, not even when the value is itself a code of the list. *)
Theorem value_without_separator_is_never_selected
    (r : ICDQuery.ConditionRow) :
  match ICDQuery.condition_source_value r with
  | Some s => ∀ a b, s ≠ a +:+ "^^" +:+ b
  | None => True
  end →
  ICDQuery.selected r = false.
Proof.
  unfold ICDQuery.selected.
  destruct (ICDQuery.condition_source_value r) as [s|]; [|reflexivity].
  intros Hs. unfold ICDQuery.processed_code, ICDQuery.split_part.
  destruct (ICDQuery.split_carets s) as [|p0 [|q rest]] eqn:E.
  - reflexivity.
  - reflexivity.
  - destruct (QueryFacts.split_carets_two s p0 q rest E) as [b Hb].
    exfalso. exact (Hs p0 b Hb).
Qed.

Lemma value_without_separator_is_never_selected_witness :
  ICDQuery.selected
    {| ICDQuery.person_id := 1;
       ICDQuery.condition_source_value := Some "F10.20";
       ICDQuery.visit_occurrence_id := Some 5%Z |} = false.
Proof.
  refine (value_without_separator_is_never_selected
            {| ICDQuery.person_id := 1;
               ICDQuery.condition_source_value := Some "F10.20";
               ICDQuery.visit_occurrence_id := Some 5%Z |} _).
  cbn [ICDQuery.condition_source_value]. intros a b H.
  destruct a as [|c0 [|c1 [|c2 [|c3 [|c4 [|c5 [|c6 a]]]]]]];
    try discriminate H.
Defined.


(** Two codes recorded at one outpatient visit qualify a patient; a code at
    an emergency-room visit, a code outside the list, and a code without a
    known visit do not. *)
Example cohort_sample_tables :
  ICDQuery.cohort Sample.conditions Sample.all_visit
  = [ {| ICD.patient := 1; ICD.inpatient_count := 0;
         ICD.outpatient_count := 2 |} ].
Proof. vm_compute. reflexivity. Qed.
